(** * platformer.py: state machine, level loading and layered rendering

    A shallow embedding of [src/platformer/platformer.py].  The program is
    stateful and talks to pygame, jsonschema and dacite; it is embedded as
    functions in a state-and-exception monad over an explicit [World]
    (the attributes of [GameEngine] and [VisualEngine], pygame's event queue
    and a trace of the calls made), reading a fixed environment [Env]
    (the files on disk and the library functions whose code is not part of
    the program).

    - An exception keeps the world reached when it was raised, so that what
      a failed call has already done can be stated.
    - A surface is its size and a function from coordinates to colours.
    - An event is its [type] and its [key] attribute, absent on events that
      have none; reading an absent attribute raises AttributeError.
    - [while not self.done] runs for a bounded number of passes; the result
      tells whether the loop was left.
    - Floats occur in [int(width * HEIGHT / h)] and in the abscissa of a
      centred text, and are kept as exact rationals.

    The file has the program first, then a concrete installation on which
    it can be run, then the vocabulary of the properties, then the lemmas
    and theorems. *)

From Stdlib Require Import ZArith QArith Qround Bool List String Ascii Lia.
From Stdlib Require Import DecimalString PrimFloat.
Import ListNotations.

Local Open Scope string_scope.
Local Open Scope list_scope.
Local Open Scope Z_scope.

(** ** Module constants (lines 22-25) *)

Definition GAME_NAME : string := "TLN Power".
Definition WIDTH : Z := 960.
Definition HEIGHT : Z := 640.
Definition FPS : Z := 60.

(** ** pygame constants used by the program (pygame 2 values) *)

Module pygame.
Definition QUIT : Z := 256.
Definition KEYDOWN : Z := 768.
Definition K_q : Z := 113.
Definition K_SPACE : Z := 32.
Definition K_LEFT : Z := 1073741904.
Definition K_RIGHT : Z := 1073741903.
End pygame.

(** ** JSON values, as [json.loads] returns them

    A Python [dict] keeps insertion order; it is an association list here,
    looked up by first match. *)

#[warnings="-register-all"]
Inductive JSON : Type :=
| JNull
| JBool (b : bool)
| JInt (n : Z)
| JFloat (f : float)
| JStr (s : string)
| JList (items : list JSON)
| JDict (entries : list (string * JSON)).

Definition dict := list (string * JSON).

Fixpoint dict_get (k : string) (d : dict) : option JSON :=
  match d with
  | [] => None
  | (k', v) :: rest => if String.eqb k k' then Some v else dict_get k rest
  end.

Definition dict_keys (d : dict) : list string := map fst d.

Definition mem (k : string) (ks : list string) : bool :=
  existsb (String.eqb k) ks.

(** ** The [Level] dataclass (lines 145-152)

    [background_color] is declared [list[int]]; the items are kept as the
    JSON values they were read as, since [bool] is a subclass of [int] in
    Python and a decoded list may hold [True]/[False]. *)

Record Level : Type := {
  name : string;
  music : string;
  background_color : list JSON;
  background_img : string;
  scenery_img : string
}.

(** The fields of the dataclass, in declaration order, with their types. *)

Inductive FieldType := T_str | T_list_int.

Definition Level_fields : list (string * FieldType) :=
  [ ("name", T_str); ("music", T_str); ("background_color", T_list_int);
    ("background_img", T_str); ("scenery_img", T_str) ].

Definition Level_field_names : list string := map fst Level_fields.

(** ** Errors *)

Inductive DaciteError :=
| MissingValueError (field : string)
| UnexpectedDataError (keys : list string)
| WrongTypeError (field : string).

Inductive Error :=
| FileNotFoundError (path : string)
| JSONDecodeError (path : string)
| ValidationError
| SchemaError
| DecodeError (e : DaciteError)
| AttributeError (attr : string)
| ValueError (msg : string)
| ZeroDivisionError
| PygameError (msg : string).

(** ** Surfaces

    A surface is its size and its pixels, read as [get_at] reads them.
    Colours are RGBA. *)

Definition Color := (Z * Z * Z * Z)%type.

Record Surface : Type := {
  get_width : Z;
  get_height : Z;
  get_at : Z -> Z -> Color
}.

(** [pygame.Surface([w, h], pygame.SRCALPHA, 32)]: fully transparent. *)
Definition Surface_new (w h : Z) : Surface :=
  {| get_width := w; get_height := h; get_at := fun _ _ => (0, 0, 0, 0) |}.

(** [surface.fill(c)]: every pixel is set to [c], alpha included. *)
Definition Surface_fill (s : Surface) (c : Color) : Surface :=
  {| get_width := get_width s; get_height := get_height s;
     get_at := fun _ _ => c |}.

Definition inside (s : Surface) (x y : Z) : bool :=
  (0 <=? x) && (x <? get_width s) && (0 <=? y) && (y <? get_height s).

(** [dst.blit(src, (x0, y0))]: source pixels are blended over the
    destination's where the source lies; the rest is untouched. *)
Definition Surface_blit (blend : Color -> Color -> Color)
           (dst src : Surface) (x0 y0 : Z) : Surface :=
  {| get_width := get_width dst; get_height := get_height dst;
     get_at := fun x y =>
       if inside src (x - x0) (y - y0)
       then blend (get_at src (x - x0) (y - y0)) (get_at dst x y)
       else get_at dst x y |}.

(** ** Events *)

Record Event : Type := {
  type : Z;
  key : option Z       (* the [key] attribute, present on key events only *)
}.

Definition QuitEvent : Event := {| type := pygame.QUIT; key := None |}.
Definition KeyDownEvent (k : Z) : Event :=
  {| type := pygame.KEYDOWN; key := Some k |}.

(** ** Fonts *)

Record Font : Type := { font_file : string; font_size : Z }.

Definition FONT_SM : Font :=
  {| font_file := "data/assets/fonts/minya_nouvelle_bd.ttf"; font_size := 32 |}.
Definition FONT_MD : Font :=
  {| font_file := "data/assets/fonts/minya_nouvelle_bd.ttf"; font_size := 64 |}.
Definition FONT_LG : Font :=
  {| font_file := "data/assets/fonts/thats_super.ttf"; font_size := 72 |}.

(** ** The environment: files and library functions *)

Inductive FileContent :=
| NoFile
| NotJson
| Doc (j : JSON).

Inductive Verdict := Valid | Violation | BadSchema.

(** What [font.render] gives: the rendered surface, or the exception it
    raises (pygame raises ValueError for a text that holds a null
    character and for an invalid colour). *)
Inductive Rendering :=
| Rendered (render : Surface)
| NotRendered (e : Error).

Record Env : Type := {
  (* [Path.read_text] followed by [json.loads] *)
  json_files : string -> FileContent;
  (* [pygame.image.load(path).convert_alpha()] *)
  image_files : string -> option Surface;
  (* does [pygame.mixer.music.load(path)] find a playable file *)
  music_files : string -> bool;
  (* does [pygame.font.Font(path, size)] find a font *)
  font_files : string -> bool;
  (* [jsonschema.validate(data, schema)] *)
  validate : JSON -> JSON -> Verdict;
  (* [font.render(text, True, color)] *)
  font_render : Font -> string -> Z * Z * Z -> Rendering;
  (* the blend of a source pixel over a destination pixel in [blit] *)
  alpha_blend : Color -> Color -> Color;
  (* the pixels of [pygame.transform.scale(img, (w, h))] *)
  scale_pixels : Surface -> Z -> Z -> Z -> Z -> Color
}.

(** ** The world *)

Inductive GameState := SplashScreenState | PlayingState.

Inductive Layer := Screen | BackgroundLayer | SceneryLayer.

Inductive Call :=
(* calls into libraries *)
| ReadText (path : string)
| Validate (data schema : JSON)
| FromDict (data : JSON)
| MusicLoad (path : string)
| MusicPlay (loops : Z)
| ImageLoad (path : string)
| TransformScale (ow oh w h : Z)
| Fill (target : Layer) (c : Color)
| Blit (target : Layer) (src_w src_h x y : Z)
| Flip
| FontRender (font : Font) (text : string) (color : Z * Z * Z)
| EventGet
| ClockTick (fps : Z)
| Print (s : string)
| PrintEvent (s : string) (e : Event)
(* entries of the program's own methods *)
| load_called (level : string)
| play_music_called (music_path : string)
| set_background_called (color : list JSON) (filepath : string)
| set_scenery_called (filepath : string)
| write_centered_text_called (text : string) (font : Font)
                             (color : Z * Z * Z) (coord : Z * Z)
| process_events_called (st : GameState)
| update_called (st : GameState)
| draw_called (st : GameState).

Record World : Type := {
  (* GameEngine *)
  done : bool;
  current_state : option GameState;
  (* VisualEngine *)
  screen : Surface;
  background_layer : Surface;
  scenery_layer : Surface;
  (* pygame's event queue, and the events that arrive during each coming
     clock tick *)
  event_queue : list Event;
  arrivals : list (list Event);
  (* every call made so far, oldest first *)
  trace : list Call
}.

Definition set_done (b : bool) (w : World) : World :=
  {| done := b; current_state := current_state w; screen := screen w;
     background_layer := background_layer w; scenery_layer := scenery_layer w;
     event_queue := event_queue w; arrivals := arrivals w; trace := trace w |}.

Definition set_current_state (s : option GameState) (w : World) : World :=
  {| done := done w; current_state := s; screen := screen w;
     background_layer := background_layer w; scenery_layer := scenery_layer w;
     event_queue := event_queue w; arrivals := arrivals w; trace := trace w |}.

Definition get_layer (l : Layer) (w : World) : Surface :=
  match l with
  | Screen => screen w
  | BackgroundLayer => background_layer w
  | SceneryLayer => scenery_layer w
  end.

Definition set_layer (l : Layer) (s : Surface) (w : World) : World :=
  {| done := done w; current_state := current_state w;
     screen := match l with Screen => s | _ => screen w end;
     background_layer :=
       match l with BackgroundLayer => s | _ => background_layer w end;
     scenery_layer :=
       match l with SceneryLayer => s | _ => scenery_layer w end;
     event_queue := event_queue w; arrivals := arrivals w; trace := trace w |}.

Definition set_events (q : list Event) (a : list (list Event)) (w : World)
  : World :=
  {| done := done w; current_state := current_state w; screen := screen w;
     background_layer := background_layer w; scenery_layer := scenery_layer w;
     event_queue := q; arrivals := a; trace := trace w |}.

Definition log (c : Call) (w : World) : World :=
  {| done := done w; current_state := current_state w; screen := screen w;
     background_layer := background_layer w; scenery_layer := scenery_layer w;
     event_queue := event_queue w; arrivals := arrivals w;
     trace := trace w ++ [c] |}.

(** ** The monad: state, and exceptions that keep the state reached *)

Inductive Outcome (A : Type) : Type :=
| Ok (a : A) (w : World)
| Raise (e : Error) (w : World).

Arguments Ok {A} a w.
Arguments Raise {A} e w.

Definition M (A : Type) : Type := World -> Outcome A.

Definition ret {A} (a : A) : M A := fun w => Ok a w.

Definition raise {A} (e : Error) : M A := fun w => Raise e w.

Definition bind {A B} (m : M A) (k : A -> M B) : M B :=
  fun w => match m w with
           | Ok a w' => k a w'
           | Raise e w' => Raise e w'
           end.

Definition modify (f : World -> World) : M unit := fun w => Ok tt (f w).

Definition emit (c : Call) : M unit := modify (log c).

Declare Scope py_scope.
Delimit Scope py_scope with py.

Notation "x <- m ;; k" := (bind m (fun x => k))
  (at level 100, m at next level, right associativity) : py_scope.
Notation "m ;; k" := (bind m (fun _ => k))
  (at level 100, right associativity) : py_scope.

Local Open Scope py_scope.

(** [for x in xs: body(x)] *)
Fixpoint for_each {A} (xs : list A) (body : A -> M unit) : M unit :=
  match xs with
  | [] => ret tt
  | x :: rest => body x ;; for_each rest body
  end.

Definition world_of {A} (o : Outcome A) : World :=
  match o with Ok _ w => w | Raise _ w => w end.

Definition succeeds {A} (o : Outcome A) : bool :=
  match o with Ok _ _ => true | Raise _ _ => false end.

(** ** Python arithmetic used by the program *)

(** [a / b] on two ints is true division.  The quotient is kept exact: on
    the operands the program meets (below 2^53) the float quotient is the
    correctly rounded one, and truncating it gives the same integer as
    truncating the exact quotient. *)
Definition truediv (a b : Z) : option Q :=
  if b =? 0 then None
  else Some (Qmake (a * Z.sgn b) (Z.to_pos (Z.abs b))).

(** [int(x)]: truncation toward zero. *)
Definition int (x : Q) : Z := Z.quot (Qnum x) (Zpos (Qden x)).

(** [range(start, stop, step)], as a list; [None] when [step] is 0
    (ValueError).  The length is computed first, as CPython does. *)
Definition range_len (start stop step : Z) : Z :=
  if 0 <? step then
    if start <? stop then (stop - start - 1) / step + 1 else 0
  else
    if stop <? start then (start - stop - 1) / (- step) + 1 else 0.

Definition range (start stop step : Z) : option (list Z) :=
  if step =? 0 then None
  else Some (map (fun i => start + Z.of_nat i * step)
                 (seq 0 (Z.to_nat (range_len start stop step)))).

(** [str(n)] for an int, as an f-string formats it. *)
Definition str (n : Z) : string := NilZero.string_of_int (Z.to_int n).

(** [base / p] on paths. *)
Definition path_join (base p : string) : string :=
  if String.prefix "/" p then p else (base ++ "/" ++ p)%string.

(** pygame's reading of a colour argument: three or four ints in 0..255. *)
Definition channel (v : JSON) : option Z :=
  match v with
  | JInt n => if (0 <=? n) && (n <=? 255) then Some n else None
  | JBool b => Some (Z.b2z b)
  | _ => None
  end.

Definition color_of (color : list JSON) : option Color :=
  match map channel color with
  | [Some r; Some g; Some b] => Some (r, g, b, 255)
  | [Some r; Some g; Some b; Some a] => Some (r, g, b, a)
  | _ => None
  end.

(** ** dacite's type check for the two field types of [Level] *)

Definition is_int (v : JSON) : bool :=
  match v with
  | JInt _ | JBool _ => true
  | _ => false
  end.

Definition is_instance (v : JSON) (t : FieldType) : bool :=
  match t, v with
  | T_str, JStr _ => true
  | T_list_int, JList items => forallb is_int items
  | _, _ => false
  end.

Definition as_str (v : JSON) : string :=
  match v with JStr s => s | _ => EmptyString end.

Definition as_list (v : JSON) : list JSON :=
  match v with JList l => l | _ => [] end.

Section Program.

Variable env : Env.

(** ** Library calls, recorded in the trace *)

Definition read_json (path : string) : M JSON :=
  emit (ReadText path) ;;
  match json_files env path with
  | NoFile => raise (FileNotFoundError path)
  | NotJson => raise (JSONDecodeError path)
  | Doc j => ret j
  end.

Definition jsonschema_validate (data schema : JSON) : M unit :=
  emit (Validate data schema) ;;
  match validate env data schema with
  | Valid => ret tt
  | Violation => raise ValidationError
  | BadSchema => raise SchemaError
  end.

(** One field of the dataclass: looked up, then type-checked. *)
Definition field_value (data : dict) (f : string) (t : FieldType) : M JSON :=
  match dict_get f data with
  | None => raise (DecodeError (MissingValueError f))
  | Some v =>
      if is_instance v t then ret v
      else raise (DecodeError (WrongTypeError f))
  end.

(** [from_dict(data_class=Level, data=data, config=Config(strict=True, ...))]:
    extra keys are refused first, then the fields are built in declaration
    order. *)
Definition from_dict_Level (data : JSON) : M Level :=
  emit (FromDict data) ;;
  match data with
  | JDict d =>
      let extra_fields :=
        filter (fun k => negb (mem k Level_field_names)) (dict_keys d) in
      match extra_fields with
      | _ :: _ => raise (DecodeError (UnexpectedDataError extra_fields))
      | [] =>
          v_name <- field_value d "name" T_str ;;
          v_music <- field_value d "music" T_str ;;
          v_color <- field_value d "background_color" T_list_int ;;
          v_bg <- field_value d "background_img" T_str ;;
          v_scenery <- field_value d "scenery_img" T_str ;;
          ret {| name := as_str v_name; music := as_str v_music;
                 background_color := as_list v_color;
                 background_img := as_str v_bg;
                 scenery_img := as_str v_scenery |}
      end
  | _ => raise (AttributeError "keys")
  end.

Definition image_load (path : string) : M Surface :=
  emit (ImageLoad path) ;;
  match image_files env path with
  | Some img => ret img
  | None => raise (FileNotFoundError path)
  end.

Definition transform_scale (img : Surface) (w h : Z) : M Surface :=
  emit (TransformScale (get_width img) (get_height img) w h) ;;
  if (w <? 0) || (h <? 0)
  then raise (ValueError "Cannot scale to negative size")
  else ret {| get_width := w; get_height := h;
              get_at := scale_pixels env img w h |}.

Definition fill (target : Layer) (color : list JSON) : M unit :=
  match color_of color with
  | None => raise (ValueError "invalid color argument")
  | Some c =>
      emit (Fill target c) ;;
      modify (fun w => set_layer target (Surface_fill (get_layer target w) c) w)
  end.

Definition blit (target : Layer) (src : Surface) (x y : Z) : M unit :=
  emit (Blit target (get_width src) (get_height src) x y) ;;
  modify (fun w =>
    set_layer target
      (Surface_blit (alpha_blend env) (get_layer target w) src x y) w).

Definition layer (l : Layer) : M Surface := fun w => Ok (get_layer l w) w.

(** [font.render(text, True, color)] *)
Definition Font_render (font : Font) (text : string) (color : Z * Z * Z)
  : M Surface :=
  emit (FontRender font text color) ;;
  match font_render env font text color with
  | Rendered render => ret render
  | NotRendered e => raise e
  end.

Definition flip : M unit := emit Flip.

Definition py_truediv (a b : Z) : M Q :=
  match truediv a b with
  | Some q => ret q
  | None => raise ZeroDivisionError
  end.

Definition py_range (start stop step : Z) : M (list Z) :=
  match range start stop step with
  | Some xs => ret xs
  | None => raise (ValueError "range() arg 3 must not be zero")
  end.

Definition print (s : string) : M unit := emit (Print s).

(** ** MusicEngine (lines 128-142) *)

Definition MusicEngine_base : string := "data/assets/musics".

Definition play_music (music_path : string) : M unit :=
  emit (play_music_called music_path) ;;
  let music_path := path_join MusicEngine_base music_path in
  emit (MusicLoad music_path) ;;
  (if music_files env music_path then ret tt
   else raise (PygameError "No such file or directory")) ;;
  emit (MusicPlay (-1)) ;;
  print (":loud_sound: Play '" ++ music_path ++ "'")%string.

(** ** LevelEngine (lines 155-166) *)

Definition LevelEngine_base : string := "data/level".

Definition load (level : string) : M Level :=
  emit (load_called level) ;;
  data <- read_json (path_join LevelEngine_base (level ++ ".json")%string) ;;
  schema <- read_json (path_join LevelEngine_base "level.schema.json") ;;
  jsonschema_validate data schema ;;
  from_dict_Level data.

(** ** VisualEngine (lines 169-215) *)

Definition set_background (color : list JSON) (filepath : string) : M unit :=
  emit (set_background_called color filepath) ;;
  let filepath := ("data/assets/backgrounds/" ++ filepath)%string in
  fill BackgroundLayer color ;;
  background_img <- image_load filepath ;;
  let h := get_height background_img in
  q <- py_truediv (get_width background_img * HEIGHT) h ;;
  let w := int q in
  background_img <- transform_scale background_img w HEIGHT ;;
  xs <- py_range 0 WIDTH (get_width background_img) ;;
  for_each xs (fun x => blit BackgroundLayer background_img x 0) ;;
  background_layer <- layer BackgroundLayer ;;
  blit Screen background_layer 0 0 ;;
  flip.

Definition set_scenery (filepath : string) : M unit :=
  emit (set_scenery_called filepath) ;;
  let filepath := ("data/assets/backgrounds/" ++ filepath)%string in
  scenery_img <- image_load filepath ;;
  let h := get_height scenery_img in
  q <- py_truediv (get_width scenery_img * HEIGHT) h ;;
  let w := int q in
  scenery_img <- transform_scale scenery_img w HEIGHT ;;
  xs <- py_range 0 WIDTH (get_width scenery_img) ;;
  for_each xs (fun x =>
    blit SceneryLayer scenery_img x (HEIGHT - get_height scenery_img)) ;;
  scenery_layer <- layer SceneryLayer ;;
  blit Screen scenery_layer 0 0 ;;
  flip.

Definition write_centered_text (text : string) (font : Font)
           (color : Z * Z * Z) (coord : Z * Z) : M Surface :=
  emit (write_centered_text_called text font color coord) ;;
  render <- Font_render font text color ;;
  half <- py_truediv (get_width render) 2 ;;
  blit Screen render (int (inject_Z (fst coord) - half)) (snd coord) ;;
  flip ;;
  ret render.

(** ** Game states (lines 54-125) *)

Definition PlayingState_init (level : Z) : M unit :=
  level <- load ("world-" ++ str level)%string ;;
  play_music (music level) ;;
  set_background (background_color level) (background_img level) ;;
  set_scenery (scenery_img level) ;;
  write_centered_text (name level) FONT_MD (0, 0, 0) (WIDTH / 2, 16) ;;
  ret tt.

Definition SplashScreenState_init : M unit :=
  level <- load "splash" ;;
  play_music (music level) ;;
  set_background (background_color level) (background_img level) ;;
  set_scenery (scenery_img level) ;;
  first_line <- write_centered_text GAME_NAME FONT_LG (16, 86, 103)
                                    (WIDTH / 2, HEIGHT / 3) ;;
  write_centered_text "Appuie sur une touche" FONT_SM (255, 255, 255)
                      (WIDTH / 2, HEIGHT / 3 + 16 + get_height first_line) ;;
  ret tt.

(** [pygame.event.get()]: returns the pending events and empties the queue. *)
Definition event_get : M (list Event) :=
  fun w => Ok (event_queue w) (log EventGet (set_events [] (arrivals w) w)).

(** [event.key]: AttributeError when the event has no such attribute. *)
Definition event_key (event : Event) : M Z :=
  match key event with
  | Some k => ret k
  | None => raise (AttributeError "key")
  end.

(** [case <pattern> if <guard>]: the guard is evaluated only when the
    pattern matches, and it belongs to the whole pattern, alternatives
    included. *)
Definition case_if (pattern : bool) (guard : M bool) : M bool :=
  if pattern then guard else ret false.

(** The [match event.type] of [PlayingState.process_events] (lines 71-81),
    one [case] after the other; the last two are the same. *)
Definition PlayingState_on_event (event : Event) : M unit :=
  c <- case_if ((type event =? pygame.QUIT) || (type event =? pygame.KEYDOWN))
               (k <- event_key event ;; ret (k =? pygame.K_q)) ;;
  if c then modify (set_done true) else
  c <- case_if (type event =? pygame.KEYDOWN)
               (k <- event_key event ;; ret (k =? pygame.K_SPACE)) ;;
  if c then print "Player jump" else
  c <- case_if (type event =? pygame.KEYDOWN)
               (k <- event_key event ;; ret (k =? pygame.K_LEFT)) ;;
  if c then print "Player left" else
  c <- case_if (type event =? pygame.KEYDOWN)
               (k <- event_key event ;; ret (k =? pygame.K_RIGHT)) ;;
  if c then print "Player right" else
  c <- case_if (type event =? pygame.KEYDOWN)
               (k <- event_key event ;; ret (k =? pygame.K_RIGHT)) ;;
  if c then print "Player right" else
  ret tt.

(** The body of the loop of [SplashScreenState.process_events]
    (lines 111-117). *)
Definition SplashScreenState_on_event (event : Event) : M unit :=
  emit (PrintEvent "splash: " event) ;;
  if type event =? pygame.QUIT then modify (set_done true)
  else if type event =? pygame.KEYDOWN then
    PlayingState_init 1 ;;
    modify (set_current_state (Some PlayingState))
  else ret tt.

(** [for event in pygame.event.get(): ...] (lines 68-81 and 108-117). *)
Definition PlayingState_process_events : M unit :=
  emit (process_events_called PlayingState) ;;
  events <- event_get ;;
  for_each events PlayingState_on_event.

Definition SplashScreenState_process_events : M unit :=
  emit (process_events_called SplashScreenState) ;;
  events <- event_get ;;
  for_each events SplashScreenState_on_event.

(** [self.current_state.process_events()]: the method of the state's
    class. *)
Definition process_events (st : GameState) : M unit :=
  match st with
  | PlayingState => PlayingState_process_events
  | SplashScreenState => SplashScreenState_process_events
  end.

(** [update] and [draw] are [pass] in both classes. *)
Definition update (st : GameState) : M unit := emit (update_called st).

Definition draw (st : GameState) : M unit := emit (draw_called st).

(** ** GameEngine (lines 218-241) *)

(** [self.current_state]. *)
Definition the_current_state : M GameState :=
  fun w => match current_state w with
           | Some st => Ok st w
           | None => Raise (AttributeError "current_state") w
           end.

(** [self.clock.tick(FPS)]: waits for the next frame; the events of that
    interval join the queue. *)
Definition clock_tick (fps : Z) : M unit :=
  emit (ClockTick fps) ;;
  modify (fun w => set_events (event_queue w ++ hd [] (arrivals w))
                              (tl (arrivals w)) w).

(** One pass through the body of the [while]. *)
Definition loop_body : M unit :=
  st <- the_current_state ;; process_events st ;;
  st <- the_current_state ;; update st ;;
  st <- the_current_state ;; draw st ;;
  clock_tick FPS.

(** [while not self.done: ...], for at most [fuel] passes.  The result is
    [true] when the loop was left, [false] when the passes ran out. *)
Fixpoint loop (fuel : nat) : M bool :=
  fun w =>
    if done w then Ok true w
    else match fuel with
         | O => Ok false w
         | S fuel' => (loop_body ;; loop fuel') w
         end.

(** [VisualEngine.__init__] and [GameEngine.__init__]: the fonts are
    opened, the two layers are created transparent, [done] is false and
    the splash screen is built and made current. *)
Definition load_font (f : Font) : M unit :=
  if font_files env (font_file f) then ret tt
  else raise (FileNotFoundError (font_file f)).

Definition boot (pending : list (list Event)) : World :=
  {| done := false; current_state := None;
     screen := Surface_fill (Surface_new WIDTH HEIGHT) (0, 0, 0, 255);
     background_layer := Surface_new WIDTH HEIGHT;
     scenery_layer := Surface_new WIDTH HEIGHT;
     event_queue := hd [] pending; arrivals := tl pending; trace := [] |}.

Definition GameEngine_init : M unit :=
  load_font FONT_SM ;; load_font FONT_MD ;; load_font FONT_LG ;;
  modify (set_layer BackgroundLayer (Surface_new WIDTH HEIGHT)) ;;
  modify (set_layer SceneryLayer (Surface_new WIDTH HEIGHT)) ;;
  modify (set_done false) ;;
  SplashScreenState_init ;;
  modify (set_current_state (Some SplashScreenState)).

(** [GameEngine().loop()] *)
Definition main (fuel : nat) : M bool :=
  GameEngine_init ;; loop fuel.

End Program.

(** ** A concrete installation, for running the program

    The level files follow the example of the specification; the library
    functions are simple stand-ins with pygame's conventions. *)

Module Sample.

Definition is_str (v : option JSON) : bool :=
  match v with Some (JStr _) => true | _ => false end.

Definition is_byte (v : JSON) : bool :=
  match v with JInt n => (0 <=? n) && (n <=? 255) | _ => false end.

Definition is_rgb (v : option JSON) : bool :=
  match v with
  | Some (JList [r; g; b]) => is_byte r && is_byte g && is_byte b
  | _ => false
  end.

(** Modelled from the spec: [data/level/level.schema.json] is not among
    the sources.  The schema requires the five fields, [name], [music],
    [background_img] and [scenery_img] strings and [background_color] an
    array of exactly three integers in 0..255; further fields are
    allowed. *)
Definition level_schema_accepts (data : JSON) : bool :=
  match data with
  | JDict d =>
      is_str (dict_get "name" d) && is_str (dict_get "music" d) &&
      is_rgb (dict_get "background_color" d) &&
      is_str (dict_get "background_img" d) &&
      is_str (dict_get "scenery_img" d)
  | _ => false
  end.

Definition level_schema : JSON := JDict [("type", JStr "object")].

Definition schema_validate (data schema : JSON) : Verdict :=
  if level_schema_accepts data then Valid else Violation.

Definition splash_json : JSON :=
  JDict [("name", JStr "Splash"); ("music", JStr "intro.ogg");
         ("background_color", JList [JInt 0; JInt 0; JInt 0]);
         ("background_img", JStr "sky.png");
         ("scenery_img", JStr "ground.png")].

Definition world_1_json : JSON :=
  JDict [("name", JStr "World 1"); ("music", JStr "level1.ogg");
         ("background_color", JList [JInt 135; JInt 206; JInt 235]);
         ("background_img", JStr "clouds.png");
         ("scenery_img", JStr "hills.png")].

Definition extra_json : JSON :=
  JDict [("name", JStr "Splash"); ("music", JStr "intro.ogg");
         ("background_color", JList [JInt 0; JInt 0; JInt 0]);
         ("background_img", JStr "sky.png");
         ("scenery_img", JStr "ground.png");
         ("difficulty", JInt 3)].

Definition json_files (path : string) : FileContent :=
  if String.eqb path "data/level/splash.json" then Doc splash_json
  else if String.eqb path "data/level/world-1.json" then Doc world_1_json
  else if String.eqb path "data/level/level.schema.json" then Doc level_schema
  else if String.eqb path "data/level/empty.json" then Doc (JDict [])
  else if String.eqb path "data/level/extra.json" then Doc extra_json
  else if String.eqb path "data/level/rgba.json" then
    Doc (JDict [("name", JStr "Splash"); ("music", JStr "intro.ogg");
                ("background_color", JList [JInt 0; JInt 0; JInt 0; JInt 0]);
                ("background_img", JStr "sky.png");
                ("scenery_img", JStr "ground.png")])
  else NoFile.

Definition blue : Color := (0, 0, 255, 255).
Definition green : Color := (0, 255, 0, 255).
Definition red : Color := (255, 0, 0, 255).
Definition clear : Color := (0, 0, 0, 0).

(** A sky of 480x320, opaque. *)
Definition sky : Surface :=
  {| get_width := 480; get_height := 320; get_at := fun _ _ => blue |}.

(** Ground of 300x200: green below row 150, transparent above. *)
Definition ground : Surface :=
  {| get_width := 300; get_height := 200;
     get_at := fun _ y => if 150 <=? y then green else clear |}.

(** Clouds of 2x3, and hills of 320x640 that are red below row 600. *)
Definition clouds : Surface :=
  {| get_width := 2; get_height := 3; get_at := fun _ _ => clear |}.

Definition hills : Surface :=
  {| get_width := 320; get_height := 640;
     get_at := fun _ y => if 600 <=? y then red else clear |}.

Definition image_files (path : string) : option Surface :=
  if String.eqb path "data/assets/backgrounds/sky.png" then Some sky
  else if String.eqb path "data/assets/backgrounds/ground.png" then Some ground
  else if String.eqb path "data/assets/backgrounds/clouds.png" then Some clouds
  else if String.eqb path "data/assets/backgrounds/hills.png" then Some hills
  else None.

Definition music_files (path : string) : bool :=
  String.eqb path "data/assets/musics/intro.ogg" ||
  String.eqb path "data/assets/musics/level1.ogg".

Definition font_files (path : string) : bool :=
  String.eqb path "data/assets/fonts/minya_nouvelle_bd.ttf" ||
  String.eqb path "data/assets/fonts/thats_super.ttf".

(** A text holds a null character. *)
Fixpoint has_null (text : string) : bool :=
  match text with
  | EmptyString => false
  | String c rest => Ascii.eqb c Ascii.zero || has_null rest
  end.

Definition is_channel (n : Z) : bool := (0 <=? n) && (n <=? 255).

Definition font_render (f : Font) (text : string) (c : Z * Z * Z)
  : Rendering :=
  let '(r, g, b) := c in
  if has_null text
  then NotRendered (ValueError "A null character was found in the text")
  else if negb (is_channel r && is_channel g && is_channel b)
  then NotRendered (ValueError "invalid color argument")
  else Rendered
         {| get_width := Z.of_nat (String.length text) * font_size f / 2;
            get_height := font_size f;
            get_at := fun _ _ => (r, g, b, 255) |}.

(** pygame's blend of a source pixel with per-pixel alpha over a
    destination pixel. *)
Definition blend_comp (sC dC sA : Z) : Z :=
  Z.shiftr ((sC - dC) * sA + sC) 8 + dC.

Definition alpha_blend (s d : Color) : Color :=
  let '(sR, sG, sB, sA) := s in
  let '(dR, dG, dB, dA) := d in
  if dA =? 0 then s
  else (blend_comp sR dR sA, blend_comp sG dG sA, blend_comp sB dB sA,
        sA + dA - sA * dA / 255).

(** Nearest-neighbour resampling. *)
Definition scale_pixels (img : Surface) (w h x y : Z) : Color :=
  get_at img (x * get_width img / w) (y * get_height img / h).

Definition env : Env :=
  Build_Env json_files image_files music_files font_files schema_validate
            font_render alpha_blend scale_pixels.

(** The same installation with the file of level 1 missing. *)
Definition env_without_world_1 : Env :=
  Build_Env
    (fun path => if String.eqb path "data/level/world-1.json" then NoFile
                 else json_files path)
    image_files music_files font_files schema_validate
    font_render alpha_blend scale_pixels.

(** The same installation with a level 1 whose name holds a null
    character: a string for the schema and for dacite, but no text for
    [font.render]. *)
Definition null_name_json : JSON :=
  JDict [("name", JStr (String "a" (String Ascii.zero "b")));
         ("music", JStr "level1.ogg");
         ("background_color", JList [JInt 135; JInt 206; JInt 235]);
         ("background_img", JStr "clouds.png");
         ("scenery_img", JStr "hills.png")].

Definition env_with_null_name : Env :=
  Build_Env
    (fun path => if String.eqb path "data/level/world-1.json"
                 then Doc null_name_json
                 else json_files path)
    image_files music_files font_files schema_validate
    font_render alpha_blend scale_pixels.

End Sample.

(** * Vocabulary of the properties *)

(** The calls made between two worlds of one run. *)
Definition calls_since (w w' : World) : list Call :=
  skipn (List.length (trace w)) (trace w').

(** ** Level loading: malformed and well-formed objects *)

(** What the specification calls a malformed object, and a well-formed
    one. *)
Definition missing_field (d : dict) : Prop :=
  exists f, In f Level_field_names /\ dict_get f d = None.

Definition extra_field (d : dict) : Prop :=
  exists k, In k (dict_keys d) /\ ~ In k Level_field_names.

Definition wrong_typed_field (d : dict) : Prop :=
  exists f t v, In (f, t) Level_fields /\ dict_get f d = Some v /\
                is_instance v t = false.

Definition exact_fields (d : dict) : Prop :=
  (forall k, In k (dict_keys d) -> In k Level_field_names) /\
  (forall f t, In (f, t) Level_fields ->
               exists v, dict_get f d = Some v /\ is_instance v t = true).

(** The record holds the input's values, unchanged. *)
Definition verbatim (d : dict) (lvl : Level) : Prop :=
  dict_get "name" d = Some (JStr (name lvl)) /\
  dict_get "music" d = Some (JStr (music lvl)) /\
  dict_get "background_color" d = Some (JList (background_color lvl)) /\
  dict_get "background_img" d = Some (JStr (background_img lvl)) /\
  dict_get "scenery_img" d = Some (JStr (scenery_img lvl)).

Definition level_path (level : string) : string :=
  path_join LevelEngine_base (level ++ ".json")%string.

Definition schema_path : string :=
  path_join LevelEngine_base "level.schema.json".

(** The calls of [load] up to and including validation. *)
Definition gate_calls (level : string) (data schema : JSON) : list Call :=
  [load_called level; ReadText (level_path level); ReadText schema_path;
   Validate data schema].

(** The claim of strict decoding as the specification words it: any
    object read for a level that is malformed makes [load] fail with a
    decode error, and any well-formed one is loaded verbatim. *)
Definition strict_decode_claim : Prop :=
  forall env level d schema w,
    json_files env (level_path level) = Doc (JDict d) ->
    json_files env schema_path = Doc schema ->
    ((missing_field d \/ extra_field d \/ wrong_typed_field d) ->
       exists de w', load env level w = Raise (DecodeError de) w') /\
    (exact_fields d ->
       exists lvl w', load env level w = Ok lvl w' /\ verbatim d lvl).

Definition splash_entries : dict :=
  match Sample.splash_json with JDict d => d | _ => [] end.

Definition extra_entries : dict :=
  match Sample.extra_json with JDict d => d | _ => [] end.

(** ** Tiling *)


(** ** The scene compositor: worlds and calls of each step *)

Definition asset_path (filepath : string) : string :=
  ("data/assets/backgrounds/" ++ filepath)%string.

(** The world after [blit] and after [fill]. *)
Definition blit_world (env : Env) (target : Layer) (src : Surface)
           (x y : Z) (w : World) : World :=
  let w' := log (Blit target (get_width src) (get_height src) x y) w in
  set_layer target
    (Surface_blit (alpha_blend env) (get_layer target w') src x y) w'.

Definition fill_world (target : Layer) (c : Color) (w : World) : World :=
  let w' := log (Fill target c) w in
  set_layer target (Surface_fill (get_layer target w') c) w'.

(** The world after the tiling loop. *)
Definition tiles_on (env : Env) (target : Layer) (img : Surface) (y : Z)
           (xs : list Z) (w : World) : World :=
  fold_left (fun w x => blit_world env target img x y w) xs w.

(** The image returned by [pygame.transform.scale(img, (sw, HEIGHT))]. *)
Definition scaled (env : Env) (img : Surface) (sw : Z) : Surface :=
  {| get_width := sw; get_height := HEIGHT;
     get_at := scale_pixels env img sw HEIGHT |}.

(** The layer is composited onto the screen and the display flipped. *)
Definition composited (env : Env) (l : Layer) (w : World) : World :=
  log Flip (blit_world env Screen (get_layer l w) 0 0 w).

Definition scale_failure : Error := ValueError "Cannot scale to negative size".
Definition range_failure : Error :=
  ValueError "range() arg 3 must not be zero".

(** The tiles of a layer among some calls: where they were put, and
    their size. *)
Definition is_layer (a b : Layer) : bool :=
  match a, b with
  | Screen, Screen | BackgroundLayer, BackgroundLayer
  | SceneryLayer, SceneryLayer => true
  | _, _ => false
  end.

Definition tiles_of (target : Layer) (cs : list Call)
  : list (Z * Z * (Z * Z)) :=
  flat_map (fun c => match c with
                     | Blit l sw sh x y =>
                         if is_layer l target then [(sw, sh, (x, y))] else []
                     | _ => []
                     end) cs.

(** The resizes among some calls: original size and requested size. *)
Definition scales_of (cs : list Call) : list (Z * Z * (Z * Z)) :=
  flat_map (fun c => match c with
                     | TransformScale ow oh sw sh => [(ow, oh, (sw, sh))]
                     | _ => []
                     end) cs.

(** The calls of the scaling and tiling steps shared by the two
    operations, given the image found and the layer tiled. *)
Definition paint_calls (target : Layer) (img : option Surface)
           (layer_w layer_h : Z) : list Call :=
  match img with
  | None => []
  | Some img =>
      match truediv (get_width img * HEIGHT) (get_height img) with
      | None => []
      | Some q =>
          TransformScale (get_width img) (get_height img) (int q) HEIGHT ::
          if int q <? 0 then []
          else match range 0 WIDTH (int q) with
               | None => []
               | Some xs =>
                   map (fun x => Blit target (int q) HEIGHT x 0) xs
                   ++ [Blit Screen layer_w layer_h 0 0; Flip]
               end
      end
  end.

Definition scenery_calls (env : Env) (filepath : string)
           (layer_w layer_h : Z) : list Call :=
  [set_scenery_called filepath; ImageLoad (asset_path filepath)]
  ++ paint_calls SceneryLayer (image_files env (asset_path filepath))
                 layer_w layer_h.

Definition background_calls (env : Env) (color : list JSON)
           (filepath : string) (layer_w layer_h : Z) : list Call :=
  set_background_called color filepath ::
  match color_of color with
  | None => []
  | Some c =>
      [Fill BackgroundLayer c; ImageLoad (asset_path filepath)]
      ++ paint_calls BackgroundLayer (image_files env (asset_path filepath))
                     layer_w layer_h
  end.

(** The tiles and the resizes among the calls of the shared steps. *)
Definition painted_tiles (img : option Surface) : list (Z * Z * (Z * Z)) :=
  match img with
  | None => []
  | Some img =>
      match truediv (get_width img * HEIGHT) (get_height img) with
      | None => []
      | Some q =>
          if int q <? 0 then []
          else match range 0 WIDTH (int q) with
               | None => []
               | Some xs => map (fun x => (int q, HEIGHT, (x, 0))) xs
               end
      end
  end.

Definition painted_scales (img : option Surface)
  : list (Z * Z * (Z * Z)) :=
  match img with
  | None => []
  | Some img =>
      match truediv (get_width img * HEIGHT) (get_height img) with
      | None => []
      | Some q => [(get_width img, get_height img, (int q, HEIGHT))]
      end
  end.

(** Python's [round]: to the nearest integer, ties to the even one. *)
Definition py_round (q : Q) : Z :=
  let f := Qfloor q in
  match Qcompare (q - inject_Z f) (1 # 2) with
  | Lt => f
  | Gt => f + 1
  | Eq => if Z.even f then f else f + 1
  end.

(** The claim on scaling as the specification words it: the rescaled
    width is the rounded quotient. *)
Definition scale_rounds_claim : Prop :=
  forall env filepath w img,
    image_files env (asset_path filepath) = Some img ->
    0 < get_height img ->
    scales_of (calls_since w (world_of (set_scenery env filepath w)))
    = [(get_width img, get_height img,
        (py_round (get_width img * HEIGHT # Z.to_pos (get_height img)),
         HEIGHT))].

(** ** Runs: results that do not depend on the world, and counting
    the effects of a run *)

(** Two outcomes agree on success and on the value or error. *)
Definition same_result {A} (o1 o2 : Outcome A) : Prop :=
  match o1, o2 with
  | Ok a _, Ok b _ => a = b
  | Raise e _, Raise e' _ => e = e'
  | _, _ => False
  end.

(** A computation whose result does not depend on the world it starts
    from. *)
Definition steady {A} (m : M A) : Prop :=
  forall w1 w2, same_result (m w1) (m w2).

(** Kinds of construction-time effects, recognised by the entry of the
    method that performs them. *)
Inductive Effect :=
| PlayMusic | SetBackground | SetScenery | WriteText
| LoadLevel (level : string).

Definition is_effect (k : Effect) (c : Call) : bool :=
  match k, c with
  | PlayMusic, play_music_called _ => true
  | SetBackground, set_background_called _ _ => true
  | SetScenery, set_scenery_called _ => true
  | WriteText, write_centered_text_called _ _ _ _ => true
  | LoadLevel level, load_called l => String.eqb l level
  | _, _ => false
  end.

Definition tally (p : Call -> bool) (w : World) : nat :=
  List.length (filter p (trace w)).

(** Every successful run of [m] adds [n] calls satisfying [p]. *)
Definition adds {A} (m : M A) (p : Call -> bool) (n : nat) : Prop :=
  forall w a w', m w = Ok a w' -> tally p w' = (tally p w + n)%nat.

(** A computation that adds no method entry at all. *)
Definition quiet {A} (m : M A) : Prop := forall k, adds m (is_effect k) 0.

Definition counts_load (level : string) (k : Effect) : nat :=
  match k with
  | LoadLevel l => if String.eqb level l then 1 else 0
  | _ => 0
  end.

Definition counts_play_music (k : Effect) : nat :=
  match k with PlayMusic => 1 | _ => 0 end.

Definition counts_set_background (k : Effect) : nat :=
  match k with SetBackground => 1 | _ => 0 end.

Definition counts_set_scenery (k : Effect) : nat :=
  match k with SetScenery => 1 | _ => 0 end.

Definition counts_write (k : Effect) : nat :=
  match k with WriteText => 1 | _ => 0 end.

(** How often building the playing state for [level] performs [k]. *)
Definition counts_playing (level : Z) (k : Effect) : nat :=
  match k with
  | LoadLevel l => if String.eqb ("world-" ++ str level)%string l then 1 else 0
  | _ => 1
  end.

(** The playing state can be built in this installation. *)
Definition constructs (env : Env) (level : Z) : Prop :=
  forall w, exists w', PlayingState_init env level w = Ok tt w'.

(** ** Events and the driver loop *)

Definition is_keydown (e : Event) : bool := type e =? pygame.KEYDOWN.
Definition is_quit (e : Event) : bool := type e =? pygame.QUIT.

(** The body of the [for] loop of [process_events], by state. *)
Definition on_event (env : Env) (st : GameState) : Event -> M unit :=
  match st with
  | PlayingState => PlayingState_on_event
  | SplashScreenState => SplashScreenState_on_event env
  end.

(** The number of key-down events in a queue. *)
Definition keydowns (events : list Event) : nat :=
  List.length (filter is_keydown events).

(** Events whose [key] attribute can be read wherever the playing state
    reads it: every key-down event is one; a quit event as pygame posts
    it is not. *)
Definition carries_key (e : Event) : Prop :=
  (is_quit e || is_keydown e) = true -> key e <> None.

(** The claim on event handling as the specification words it. *)
Definition event_handling_never_fails_claim : Prop :=
  forall env st w, exists w', process_events env st w = Ok tt w'.

(** The four construction-time effects. *)
Definition construction_effects : list Effect :=
  [PlayMusic; SetBackground; SetScenery; WriteText].

(** The claim on the transition as the specification words it: a queue
    with at least one key-down installs the playing state and fires
    each construction-time effect exactly once. *)
Definition effects_fire_once_claim : Prop :=
  forall env w,
    existsb is_keydown (event_queue w) = true ->
    let o := process_events env SplashScreenState w in
    succeeds o = true ->
    current_state (world_of o) = Some PlayingState /\
    forall k, In k construction_effects ->
              tally (is_effect k) (world_of o)
              = (tally (is_effect k) w + 1)%nat.

(** The world at the end of a pass, from the world [w1] in which
    [process_events] returned with [st1] current. *)
Definition pass_end (st1 : GameState) (w1 : World) : World :=
  let w2 := log (ClockTick FPS)
              (log (draw_called st1) (log (update_called st1) w1)) in
  set_events (event_queue w2 ++ hd [] (arrivals w2)) (tl (arrivals w2)) w2.


(** ** Layers *)

(** A layer after the tiles of [img] were blitted on [base] at [xs]. *)
Definition painted_layer (env : Env) (base img : Surface) (y : Z)
           (xs : list Z) : Surface :=
  fold_left (fun s x => Surface_blit (alpha_blend env) s img x y) xs base.

(** Blending a clear pixel over a pixel that is not transparent gives
    that pixel. *)
Definition clear_keeps (env : Env) : Prop :=
  forall d, snd d <> 0 -> alpha_blend env (0, 0, 0, 0) d = d.

(** ** Frames, for what an operation leaves alone *)

(** A computation that, finished or failed, leaves the world related by
    [R] to the one it started from. *)
Definition keeps (R : World -> World -> Prop) {A} (m : M A) : Prop :=
  forall w, R w (world_of (m w)).

(** Two worlds agree on an observation. *)
Definition agree {X} (f : World -> X) (w w' : World) : Prop := f w' = f w.

(** What the driver owns, the three surfaces, and their sizes. *)
Definition driver_of (w : World)
  : bool * option GameState * list Event * list (list Event) :=
  (done w, current_state w, event_queue w, arrivals w).

Definition surfaces_of (w : World) : Surface * Surface * Surface :=
  (screen w, background_layer w, scenery_layer w).

Definition size_of (s : Surface) : Z * Z := (get_width s, get_height s).

Definition sizes_of (w : World) : (Z * Z) * (Z * Z) * (Z * Z) :=
  (size_of (screen w), size_of (background_layer w),
   size_of (scenery_layer w)).

(** The entries of the program's own methods among the calls. *)
Definition is_entry (c : Call) : bool :=
  match c with
  | load_called _ | play_music_called _ | set_background_called _ _
  | set_scenery_called _ | write_centered_text_called _ _ _ _ => true
  | _ => false
  end.

Definition entries_of (w : World) : list Call := filter is_entry (trace w).

(** [done] is not taken back. *)
Definition done_stays (w w' : World) : Prop := done w = true -> done w' = true.

(** The current state is left as it is or becomes the playing state. *)
Definition state_moves_on (w w' : World) : Prop :=
  current_state w' = current_state w \/ current_state w' = Some PlayingState.

(** An event that makes the playing state set [done]: a quit or key-down
    event whose key is the quit key. *)
Definition quit_pressed (e : Event) : bool :=
  (is_quit e || is_keydown e) &&
  match key e with Some k => k =? pygame.K_q | None => false end.

(** What no handler changes: the sizes of the surfaces and the events
    still to come. *)
Definition handler_frame (w : World)
  : ((Z * Z) * (Z * Z) * (Z * Z)) * list Event * list (list Event) :=
  (sizes_of w, event_queue w, arrivals w).

(** An event the playing state handles without setting [done]. *)
Definition idle (e : Event) : Prop := carries_key e /\ quit_pressed e = false.

(** The size of the viewport, for the three surfaces. *)
Definition viewport_sizes : (Z * Z) * (Z * Z) * (Z * Z) :=
  ((WIDTH, HEIGHT), (WIDTH, HEIGHT), (WIDTH, HEIGHT)).

(** * Lemmas and theorems *)

(** ** The arithmetic, on examples *)

Example str_1 : str 1 = "1".
Proof. reflexivity. Qed.

Example range_three_tiles : range 0 960 426 = Some [0; 426; 852].
Proof. reflexivity. Qed.

Example range_exact_fit : range 0 960 320 = Some [0; 320; 640].
Proof. reflexivity. Qed.

Example range_zero_step : range 0 960 0 = None.
Proof. reflexivity. Qed.

Example int_truncates : int (1280 # 3) = 426 /\ int (-7 # 2) = -3.
Proof. split; reflexivity. Qed.

Example py_round_nearest :
  py_round (1280 # 3) = 427 /\ py_round (1 # 2) = 0 /\ py_round (3 # 2) = 2 /\
  py_round (5 # 4) = 1.
Proof. repeat split. Qed.

(** The example of the specification: building the splash screen from
    [splash.json] plays the music, sets the background and the scenery
    and draws the two lines of text, once each and in this order. *)
Example splash_scenario :
  filter (fun c => existsb (fun k => is_effect k c) construction_effects)
         (trace (world_of (GameEngine_init Sample.env (boot []))))
  = [play_music_called "intro.ogg";
     set_background_called [JInt 0; JInt 0; JInt 0] "sky.png";
     set_scenery_called "ground.png";
     write_centered_text_called "TLN Power" FONT_LG (16, 86, 103) (480, 213);
     write_centered_text_called "Appuie sur une touche" FONT_SM
                                (255, 255, 255) (480, 301)].
Proof. reflexivity. Qed.

(** ** Traces *)

Lemma calls_since_app w w' cs :
  trace w' = trace w ++ cs -> calls_since w w' = cs.
Proof.
  unfold calls_since. intros ->.
  induction (trace w) as [|c t IH]; simpl; auto.
Qed.

Lemma trace_log c w : trace (log c w) = trace w ++ [c].
Proof. reflexivity. Qed.

(** ** Level loading *)

Lemma mem_In k ks : mem k ks = true <-> In k ks.
Proof.
  unfold mem. rewrite existsb_exists. split.
  - intros (x & Hx & E). apply String.eqb_eq in E. now subst.
  - intros H. exists k. split; auto. apply String.eqb_refl.
Qed.

Lemma defect_not_exact d :
  missing_field d \/ extra_field d \/ wrong_typed_field d ->
  ~ exact_fields d.
Proof.
  intros [(f & Hf & Hn) | [(k & Hk & Hn) | (f & t & v & Hf & Hv & Hi)]]
         [Hkeys Hall].
  - unfold Level_field_names in Hf. apply in_map_iff in Hf.
    destruct Hf as ([f' t] & <- & Hin).
    destruct (Hall _ _ Hin) as (v & Hv & _). simpl in Hn. congruence.
  - auto.
  - destruct (Hall _ _ Hf) as (v' & Hv' & Hi'). congruence.
Qed.

Lemma no_extra_keys d :
  filter (fun k => negb (mem k Level_field_names)) (dict_keys d) = [] ->
  forall k, In k (dict_keys d) -> In k Level_field_names.
Proof.
  intros E k Hk. apply mem_In.
  destruct (mem k Level_field_names) eqn:Hm; auto.
  assert (In k (filter (fun k => negb (mem k Level_field_names)) (dict_keys d)))
    as Hin by (apply filter_In; split; auto; now rewrite Hm).
  rewrite E in Hin. destruct Hin.
Qed.

Lemma some_extra_key d k ks :
  filter (fun k => negb (mem k Level_field_names)) (dict_keys d) = k :: ks ->
  extra_field d.
Proof.
  intros E.
  assert (In k (filter (fun k => negb (mem k Level_field_names)) (dict_keys d)))
    as Hin by (rewrite E; now left).
  apply filter_In in Hin. destruct Hin as [Hk Hm].
  exists k. split; auto. intros Hin. apply mem_In in Hin.
  rewrite Hin in Hm. discriminate.
Qed.

Lemma is_instance_str v : is_instance v T_str = true -> v = JStr (as_str v).
Proof. destruct v; simpl; congruence. Qed.

Lemma is_instance_list v :
  is_instance v T_list_int = true -> v = JList (as_list v).
Proof. destruct v; simpl; congruence. Qed.

(** What strict decoding does on an object: a dacite error exactly when
    the object is not the five fields, correctly typed. *)
Lemma from_dict_Level_spec d w :
  (exists de, from_dict_Level (JDict d) w
              = Raise (DecodeError de) (log (FromDict (JDict d)) w)
              /\ ~ exact_fields d) \/
  (exists lvl, from_dict_Level (JDict d) w
               = Ok lvl (log (FromDict (JDict d)) w)
               /\ exact_fields d /\ verbatim d lvl).
Proof.
  unfold from_dict_Level, bind, emit, modify.
  destruct (filter _ (dict_keys d)) as [|k ks] eqn:Ex.
  2:{ left. eexists. split; [reflexivity|].
      apply defect_not_exact. right; left. eapply some_extra_key; eauto. }
  pose proof (no_extra_keys d Ex) as Hkeys.
  assert (forall f t, In (f, t) Level_fields ->
            (dict_get f d = None \/
             exists v, dict_get f d = Some v /\ is_instance v t = false) ->
            ~ exact_fields d) as Hbad.
  { intros f t Hin Hc. apply defect_not_exact.
    destruct Hc as [Hn | (v & Hv & Hi)].
    - left. exists f. split; auto.
      unfold Level_field_names. apply in_map_iff. now exists (f, t).
    - right; right. now exists f, t, v. }
  unfold field_value, ret, raise.
  destruct (dict_get "name" d) as [v1|] eqn:G1;
    [destruct (is_instance v1 T_str) eqn:I1|];
    try (left; eexists; split; [reflexivity|];
         apply (Hbad "name" T_str); [simpl; tauto | eauto]).
  destruct (dict_get "music" d) as [v2|] eqn:G2;
    [destruct (is_instance v2 T_str) eqn:I2|];
    try (left; eexists; split; [reflexivity|];
         apply (Hbad "music" T_str); [simpl; tauto | eauto]).
  destruct (dict_get "background_color" d) as [v3|] eqn:G3;
    [destruct (is_instance v3 T_list_int) eqn:I3|];
    try (left; eexists; split; [reflexivity|];
         apply (Hbad "background_color" T_list_int); [simpl; tauto | eauto]).
  destruct (dict_get "background_img" d) as [v4|] eqn:G4;
    [destruct (is_instance v4 T_str) eqn:I4|];
    try (left; eexists; split; [reflexivity|];
         apply (Hbad "background_img" T_str); [simpl; tauto | eauto]).
  destruct (dict_get "scenery_img" d) as [v5|] eqn:G5;
    [destruct (is_instance v5 T_str) eqn:I5|];
    try (left; eexists; split; [reflexivity|];
         apply (Hbad "scenery_img" T_str); [simpl; tauto | eauto]).
  right. eexists. split; [reflexivity|]. split.
  - split; auto. intros f t Hin. simpl in Hin.
    repeat (destruct Hin as [Hin|Hin];
            [injection Hin as <- <-; eauto|]); destruct Hin.
  - unfold verbatim; simpl.
    rewrite <- (is_instance_str _ I1), <- (is_instance_str _ I2),
            <- (is_instance_list _ I3), <- (is_instance_str _ I4),
            <- (is_instance_str _ I5). auto.
Qed.

Lemma load_validated env level data schema w :
  json_files env (level_path level) = Doc data ->
  json_files env schema_path = Doc schema ->
  load env level w =
    match validate env data schema with
    | Valid =>
        from_dict_Level data
          (log (Validate data schema)
             (log (ReadText schema_path)
                (log (ReadText (level_path level))
                   (log (load_called level) w))))
    | Violation =>
        Raise ValidationError
          (log (Validate data schema)
             (log (ReadText schema_path)
                (log (ReadText (level_path level))
                   (log (load_called level) w))))
    | BadSchema =>
        Raise SchemaError
          (log (Validate data schema)
             (log (ReadText schema_path)
                (log (ReadText (level_path level))
                   (log (load_called level) w))))
    end.
Proof.
  intros Hd Hs.
  unfold load, read_json, jsonschema_validate, bind, emit, modify.
  fold (level_path level). fold schema_path. rewrite Hd. simpl.
  rewrite Hs. simpl.
  destruct (validate env data schema); reflexivity.
Qed.

Lemma from_dict_Level_world data w :
  world_of (from_dict_Level data w) = log (FromDict data) w.
Proof.
  destruct data; try reflexivity.
  destruct (from_dict_Level_spec entries w) as [(de & E & _) | (l & E & _)];
    now rewrite E.
Qed.

(** C1, as stated, fails: the empty object misses every field, and
    [load] stops at schema validation with a ValidationError, not with a
    decode error. *)
Lemma strict_decode_claim_fails : ~ strict_decode_claim.
Proof.
  intros H.
  destruct (H Sample.env "empty" [] Sample.level_schema (boot [])
              eq_refl eq_refl) as [Hbad _].
  destruct Hbad as (de & w' & E).
  - left. exists "name". split; [simpl; tauto | reflexivity].
  - vm_compute in E. discriminate E.
Qed.

(** C1, amended: for every JSON object read for a level that passes
    schema validation, [load] fails with a decode error when the object
    misses one of the five fields, has an extra field or a wrong-typed
    field, and when it has exactly the five correctly-typed fields [load]
    succeeds and the record's fields are the input's values verbatim. *)
Theorem strict_decode_after_validation env level d schema w :
  json_files env (level_path level) = Doc (JDict d) ->
  json_files env schema_path = Doc schema ->
  validate env (JDict d) schema = Valid ->
  ((missing_field d \/ extra_field d \/ wrong_typed_field d) ->
     exists de w', load env level w = Raise (DecodeError de) w') /\
  (exact_fields d ->
     exists lvl w', load env level w = Ok lvl w' /\ verbatim d lvl).
Proof.
  intros Hd Hs Hv.
  rewrite (load_validated env level _ _ w Hd Hs), Hv.
  match goal with
  | |- context [from_dict_Level _ ?w0] =>
      destruct (from_dict_Level_spec d w0)
        as [(de & E & Hne) | (lvl & E & Hex & Hvb)]
  end; rewrite E; split.
  - intros _. eauto.
  - intros Hex. now destruct Hne.
  - intros Hbad. now destruct (defect_not_exact d Hbad).
  - intros _. eauto.
Qed.

Lemma splash_exact : exact_fields splash_entries.
Proof.
  split.
  - intros k Hk. simpl in Hk.
    repeat (destruct Hk as [<- | Hk]; [simpl; tauto|]). destruct Hk.
  - intros f t Hin. simpl in Hin.
    repeat (destruct Hin as [Hin | Hin];
            [injection Hin as <- <-; eexists; split; reflexivity|]).
    destruct Hin.
Defined.

Lemma extra_has_extra_field : extra_field extra_entries.
Proof.
  exists "difficulty". split; [simpl; tauto|].
  simpl. intros H.
  repeat (destruct H as [H|H]; [discriminate H|]). destruct H.
Defined.

Lemma strict_decode_after_validation_witness :
  (exists de w',
      load Sample.env "extra" (boot []) = Raise (DecodeError de) w') /\
  (exists lvl w',
      load Sample.env "splash" (boot []) = Ok lvl w' /\
      verbatim splash_entries lvl).
Proof.
  split.
  - exact (proj1 (strict_decode_after_validation Sample.env "extra"
                    extra_entries Sample.level_schema (boot [])
                    eq_refl eq_refl eq_refl)
                 (or_intror (or_introl extra_has_extra_field))).
  - exact (proj2 (strict_decode_after_validation Sample.env "splash"
                    splash_entries Sample.level_schema (boot [])
                    eq_refl eq_refl eq_refl) splash_exact).
Defined.

(** C2: a document that violates the schema makes [load] fail with a
    ValidationError at validation, with no decoding call made; and
    whenever [load] reaches strict decoding, the document decoded is the
    one read for the level and it passed validation. *)
Theorem schema_gate_precedes_decode env level w :
  (forall data schema,
      json_files env (level_path level) = Doc data ->
      json_files env schema_path = Doc schema ->
      validate env data schema = Violation ->
      exists w', load env level w = Raise ValidationError w' /\
                 calls_since w w' = gate_calls level data schema /\
                 forall d, ~ In (FromDict d) (calls_since w w')) /\
  (forall d, In (FromDict d) (calls_since w (world_of (load env level w))) ->
      exists schema,
        json_files env (level_path level) = Doc d /\
        json_files env schema_path = Doc schema /\
        validate env d schema = Valid).
Proof.
  split.
  - intros data schema Hd Hs Hv.
    rewrite (load_validated env level _ _ w Hd Hs), Hv.
    eexists. split; [reflexivity|].
    assert (calls_since w
              (log (Validate data schema)
                 (log (ReadText schema_path)
                    (log (ReadText (level_path level))
                       (log (load_called level) w))))
            = gate_calls level data schema) as E.
    { apply calls_since_app. simpl. now rewrite <- !app_assoc. }
    split; [exact E|]. rewrite E. intros d Hin. simpl in Hin.
    repeat (destruct Hin as [Hin | Hin]; [discriminate Hin|]).
    destruct Hin.
  - intros d.
    destruct (json_files env (level_path level)) as [| |data] eqn:Hd.
    1,2: unfold load, read_json, bind, emit, modify;
         fold (level_path level); rewrite Hd; simpl;
         rewrite (calls_since_app w _ [load_called level;
                                       ReadText (level_path level)])
           by (simpl; now rewrite <- !app_assoc);
         simpl; intros [H|[H|[]]]; discriminate H.
    destruct (json_files env schema_path) as [| |schema] eqn:Hs.
    1,2: unfold load, read_json, bind, emit, modify;
         fold (level_path level); fold schema_path; rewrite Hd; simpl;
         rewrite Hs; simpl;
         rewrite (calls_since_app w _ [load_called level;
                                       ReadText (level_path level);
                                       ReadText schema_path])
           by (simpl; now rewrite <- !app_assoc);
         simpl; intros [H|[H|[H|[]]]]; discriminate H.
    rewrite (load_validated env level _ _ w Hd Hs).
    destruct (validate env data schema) eqn:Hv.
    + rewrite from_dict_Level_world.
      rewrite (calls_since_app w _ (gate_calls level data schema
                                      ++ [FromDict data]))
        by (simpl; now rewrite <- !app_assoc).
      simpl. intros [H|[H|[H|[H|[H|[]]]]]]; try discriminate H.
      injection H as <-. now exists schema.
    + simpl world_of.
      rewrite (calls_since_app w _ (gate_calls level data schema))
        by (simpl; now rewrite <- !app_assoc).
      simpl. intros [H|[H|[H|[H|[]]]]]; discriminate H.
    + simpl world_of.
      rewrite (calls_since_app w _ (gate_calls level data schema))
        by (simpl; now rewrite <- !app_assoc).
      simpl. intros [H|[H|[H|[H|[]]]]]; discriminate H.
Qed.

(** The specification's example: a colour of four elements. *)
Lemma schema_gate_precedes_decode_witness :
  exists w', load Sample.env "rgba" (boot []) = Raise ValidationError w' /\
             forall d, ~ In (FromDict d) (calls_since (boot []) w').
Proof.
  destruct (proj1 (schema_gate_precedes_decode Sample.env "rgba" (boot []))
              _ _ eq_refl eq_refl eq_refl) as (w' & E & _ & Hno).
  exists w'. split; assumption.
Defined.

(** ** Arithmetic of scaling and tiling *)

Lemma truediv_pos a b :
  0 < b -> truediv a b = Some (Qmake a (Z.to_pos b)).
Proof.
  intros Hb. unfold truediv.
  destruct (Z.eqb_spec b 0) as [->|_]; [lia|].
  rewrite Z.sgn_pos, Z.abs_eq, Z.mul_1_r by lia. reflexivity.
Qed.

Lemma int_truediv a b :
  0 <= a -> 0 < b -> int (Qmake a (Z.to_pos b)) = a / b.
Proof.
  intros Ha Hb. unfold int. simpl.
  rewrite Z2Pos.id by lia. apply Z.quot_div_nonneg; lia.
Qed.

Lemma range_len_tiles W w :
  0 < w -> range_len 0 W w = if 0 <? W then (W - 1) / w + 1 else 0.
Proof.
  intros Hw. unfold range_len.
  destruct (Z.ltb_spec 0 w); [|lia].
  now rewrite Z.sub_0_r.
Qed.


Lemma range_tiles W w :
  0 < w ->
  range 0 W w
  = Some (map (fun i => Z.of_nat i * w)
              (seq 0 (Z.to_nat (range_len 0 W w)))).
Proof.
  intros Hw. unfold range.
  destruct (Z.eqb_spec w 0) as [->|_]; [lia|]. reflexivity.
Qed.

Lemma last_map_seq (f : nat -> Z) n d :
  last (map f (seq 0 (S n))) d = f n.
Proof.
  rewrite seq_S, map_app. simpl. apply last_last.
Qed.


(** ** The scene compositor, step by step *)

Lemma blit_eq env target src x y w :
  blit env target src x y w = Ok tt (blit_world env target src x y w).
Proof. reflexivity. Qed.

Lemma for_each_blit env target img y xs w :
  for_each xs (fun x => blit env target img x y) w
  = Ok tt (tiles_on env target img y xs w).
Proof.
  revert w. induction xs as [|x xs IH]; intros w; [reflexivity|].
  simpl. unfold bind. rewrite blit_eq. apply IH.
Qed.

Lemma trace_blit_world env target src x y w :
  trace (blit_world env target src x y w)
  = trace w ++ [Blit target (get_width src) (get_height src) x y].
Proof. reflexivity. Qed.

Lemma trace_tiles_on env target img y xs w :
  trace (tiles_on env target img y xs w)
  = trace w ++ map (fun x => Blit target (get_width img) (get_height img) x y) xs.
Proof.
  revert w. unfold tiles_on.
  induction xs as [|x xs IH]; intros w; simpl.
  - now rewrite app_nil_r.
  - rewrite IH, trace_blit_world, <- app_assoc. reflexivity.
Qed.

(** [set_scenery], case by case. *)
Lemma set_scenery_cases env filepath w :
  set_scenery env filepath w =
  let w1 := log (ImageLoad (asset_path filepath))
                (log (set_scenery_called filepath) w) in
  match image_files env (asset_path filepath) with
  | None => Raise (FileNotFoundError (asset_path filepath)) w1
  | Some img =>
      match truediv (get_width img * HEIGHT) (get_height img) with
      | None => Raise ZeroDivisionError w1
      | Some q =>
          let w2 := log (TransformScale (get_width img) (get_height img)
                                        (int q) HEIGHT) w1 in
          if int q <? 0 then Raise scale_failure w2
          else match range 0 WIDTH (int q) with
               | None => Raise range_failure w2
               | Some xs =>
                   Ok tt (composited env SceneryLayer
                            (tiles_on env SceneryLayer (scaled env img (int q))
                                      0 xs w2))
               end
      end
  end.
Proof.
  unfold set_scenery, image_load, py_truediv, transform_scale, py_range,
    bind, emit, modify.
  fold (asset_path filepath).
  destruct (image_files env (asset_path filepath)) as [img|]; [|reflexivity].
  cbv beta iota zeta. unfold ret at 1.
  destruct (truediv (get_width img * HEIGHT) (get_height img)) as [q|];
    [|reflexivity].
  unfold ret at 1. cbv beta iota.
  replace (HEIGHT <? 0) with false by reflexivity. rewrite orb_false_r.
  destruct (int q <? 0); [reflexivity|].
  unfold ret at 1. cbv beta iota.
  change (get_width {| get_width := int q; get_height := HEIGHT;
                       get_at := scale_pixels env img (int q) HEIGHT |})
    with (int q).
  destruct (range 0 WIDTH (int q)) as [xs|]; [|reflexivity].
  unfold ret at 1. cbv beta iota.
  fold (scaled env img (int q)).
  change (HEIGHT - get_height (scaled env img (int q))) with 0.
  rewrite for_each_blit. reflexivity.
Qed.

(** [set_background], case by case. *)
Lemma set_background_cases env color filepath w :
  set_background env color filepath w =
  let w0 := log (set_background_called color filepath) w in
  match color_of color with
  | None => Raise (ValueError "invalid color argument") w0
  | Some c =>
      let w1 := log (ImageLoad (asset_path filepath))
                    (fill_world BackgroundLayer c w0) in
      match image_files env (asset_path filepath) with
      | None => Raise (FileNotFoundError (asset_path filepath)) w1
      | Some img =>
          match truediv (get_width img * HEIGHT) (get_height img) with
          | None => Raise ZeroDivisionError w1
          | Some q =>
              let w2 := log (TransformScale (get_width img) (get_height img)
                                            (int q) HEIGHT) w1 in
              if int q <? 0 then Raise scale_failure w2
              else match range 0 WIDTH (int q) with
                   | None => Raise range_failure w2
                   | Some xs =>
                       Ok tt (composited env BackgroundLayer
                                (tiles_on env BackgroundLayer
                                          (scaled env img (int q)) 0 xs w2))
                   end
          end
      end
  end.
Proof.
  unfold set_background, fill, image_load, py_truediv, transform_scale,
    py_range, bind, emit, modify.
  fold (asset_path filepath).
  destruct (color_of color) as [c|]; [|reflexivity].
  cbv beta iota zeta.
  destruct (image_files env (asset_path filepath)) as [img|]; [|reflexivity].
  unfold ret at 1. cbv beta iota.
  destruct (truediv (get_width img * HEIGHT) (get_height img)) as [q|];
    [|reflexivity].
  unfold ret at 1. cbv beta iota.
  replace (HEIGHT <? 0) with false by reflexivity. rewrite orb_false_r.
  destruct (int q <? 0); [reflexivity|].
  unfold ret at 1. cbv beta iota.
  change (get_width {| get_width := int q; get_height := HEIGHT;
                       get_at := scale_pixels env img (int q) HEIGHT |})
    with (int q).
  destruct (range 0 WIDTH (int q)) as [xs|]; [|reflexivity].
  unfold ret at 1. cbv beta iota.
  fold (scaled env img (int q)).
  rewrite for_each_blit. reflexivity.
Qed.

Lemma size_tiles_on env target img y xs w :
  get_width (get_layer target (tiles_on env target img y xs w))
  = get_width (get_layer target w) /\
  get_height (get_layer target (tiles_on env target img y xs w))
  = get_height (get_layer target w).
Proof.
  revert w. unfold tiles_on.
  induction xs as [|x xs IH]; intros w; simpl; [auto|].
  destruct (IH (blit_world env target img x y w)) as [-> ->].
  destruct target; auto.
Qed.

Lemma trace_composited env l w :
  trace (composited env l w)
  = trace w ++ [Blit Screen (get_width (get_layer l w))
                     (get_height (get_layer l w)) 0 0; Flip].
Proof.
  unfold composited. rewrite trace_log, trace_blit_world, <- app_assoc.
  reflexivity.
Qed.

Lemma set_scenery_trace env filepath w :
  trace (world_of (set_scenery env filepath w))
  = trace w ++ scenery_calls env filepath (get_width (scenery_layer w))
                             (get_height (scenery_layer w)).
Proof.
  rewrite set_scenery_cases. unfold scenery_calls, paint_calls.
  cbv zeta.
  destruct (image_files env (asset_path filepath)) as [img|];
    [|simpl; now rewrite <- !app_assoc].
  destruct (truediv _ _) as [q|]; [|simpl; now rewrite <- !app_assoc].
  destruct (int q <? 0); [simpl; now rewrite <- !app_assoc|].
  destruct (range 0 WIDTH (int q)) as [xs|];
    [|simpl; now rewrite <- !app_assoc].
  simpl world_of. rewrite trace_composited, trace_tiles_on.
  destruct (size_tiles_on env SceneryLayer (scaled env img (int q)) 0 xs
              (log (TransformScale (get_width img) (get_height img)
                      (int q) HEIGHT)
                 (log (ImageLoad (asset_path filepath))
                    (log (set_scenery_called filepath) w)))) as [-> ->].
  simpl. rewrite <- !app_assoc. reflexivity.
Qed.

Lemma set_background_trace env color filepath w :
  trace (world_of (set_background env color filepath w))
  = trace w ++ background_calls env color filepath
                                (get_width (background_layer w))
                                (get_height (background_layer w)).
Proof.
  rewrite set_background_cases. unfold background_calls, paint_calls.
  cbv zeta.
  destruct (color_of color) as [c|]; [|reflexivity].
  destruct (image_files env (asset_path filepath)) as [img|];
    [|simpl; now rewrite <- !app_assoc].
  destruct (truediv _ _) as [q|]; [|simpl; now rewrite <- !app_assoc].
  destruct (int q <? 0); [simpl; now rewrite <- !app_assoc|].
  destruct (range 0 WIDTH (int q)) as [xs|];
    [|simpl; now rewrite <- !app_assoc].
  simpl world_of. rewrite trace_composited, trace_tiles_on.
  destruct (size_tiles_on env BackgroundLayer (scaled env img (int q)) 0 xs
              (log (TransformScale (get_width img) (get_height img)
                      (int q) HEIGHT)
                 (log (ImageLoad (asset_path filepath))
                    (fill_world BackgroundLayer c
                       (log (set_background_called color filepath) w)))))
    as [-> ->].
  simpl. rewrite <- !app_assoc. reflexivity.
Qed.

Lemma tiles_of_app target cs1 cs2 :
  tiles_of target (cs1 ++ cs2) = tiles_of target cs1 ++ tiles_of target cs2.
Proof. apply flat_map_app. Qed.

Lemma scales_of_app cs1 cs2 :
  scales_of (cs1 ++ cs2) = scales_of cs1 ++ scales_of cs2.
Proof. apply flat_map_app. Qed.

Lemma is_layer_refl l : is_layer l l = true.
Proof. now destruct l. Qed.

Lemma tiles_of_tiles target sw sh y xs :
  tiles_of target (map (fun x => Blit target sw sh x y) xs)
  = map (fun x => (sw, sh, (x, y))) xs.
Proof.
  induction xs as [|x xs IH]; simpl; [reflexivity|].
  rewrite is_layer_refl. simpl. f_equal. exact IH.
Qed.

Lemma scales_of_tiles target sw sh y xs :
  scales_of (map (fun x => Blit target sw sh x y) xs) = [].
Proof. induction xs; simpl; auto. Qed.

Lemma tiles_of_paint target img lw lh :
  target <> Screen ->
  tiles_of target (paint_calls target img lw lh) = painted_tiles img.
Proof.
  intros Ht. unfold paint_calls, painted_tiles.
  destruct img as [img|]; [|reflexivity].
  destruct (truediv _ _) as [q|]; [|reflexivity].
  change (tiles_of target (?c :: ?cs)) with (tiles_of target cs).
  destruct (int q <? 0); [reflexivity|].
  destruct (range 0 WIDTH (int q)) as [xs|]; [|reflexivity].
  rewrite tiles_of_app, tiles_of_tiles.
  destruct target; [now destruct Ht| |]; simpl; apply app_nil_r.
Qed.

Lemma scales_of_paint target img lw lh :
  scales_of (paint_calls target img lw lh) = painted_scales img.
Proof.
  unfold paint_calls, painted_scales.
  destruct img as [img|]; [|reflexivity].
  destruct (truediv _ _) as [q|]; [|reflexivity].
  simpl. f_equal.
  destruct (int q <? 0); [reflexivity|].
  destruct (range 0 WIDTH (int q)) as [xs|]; [|reflexivity].
  rewrite scales_of_app, scales_of_tiles. reflexivity.
Qed.

Lemma set_scenery_tiles env filepath w :
  tiles_of SceneryLayer
    (calls_since w (world_of (set_scenery env filepath w)))
  = painted_tiles (image_files env (asset_path filepath)).
Proof.
  rewrite (calls_since_app _ _ _ (set_scenery_trace env filepath w)).
  unfold scenery_calls. rewrite tiles_of_app, tiles_of_paint by discriminate.
  reflexivity.
Qed.

Lemma set_scenery_scales env filepath w :
  scales_of (calls_since w (world_of (set_scenery env filepath w)))
  = painted_scales (image_files env (asset_path filepath)).
Proof.
  rewrite (calls_since_app _ _ _ (set_scenery_trace env filepath w)).
  unfold scenery_calls. rewrite scales_of_app, scales_of_paint.
  reflexivity.
Qed.

Lemma set_background_tiles env color filepath w :
  tiles_of BackgroundLayer
    (calls_since w (world_of (set_background env color filepath w)))
  = match color_of color with
    | None => []
    | Some _ => painted_tiles (image_files env (asset_path filepath))
    end.
Proof.
  rewrite (calls_since_app _ _ _ (set_background_trace env color filepath w)).
  unfold background_calls.
  destruct (color_of color); [|reflexivity].
  change (tiles_of BackgroundLayer (?c :: ?cs))
    with (tiles_of BackgroundLayer cs).
  rewrite tiles_of_app, tiles_of_paint by discriminate. reflexivity.
Qed.

Lemma set_background_scales env color filepath w :
  scales_of (calls_since w (world_of (set_background env color filepath w)))
  = match color_of color with
    | None => []
    | Some _ => painted_scales (image_files env (asset_path filepath))
    end.
Proof.
  rewrite (calls_since_app _ _ _ (set_background_trace env color filepath w)).
  unfold background_calls.
  destruct (color_of color); [|reflexivity].
  change (scales_of (?c :: ?cs)) with (scales_of cs).
  rewrite scales_of_app, scales_of_paint. reflexivity.
Qed.

Lemma painted_ok_inv img q :
  truediv (get_width img * HEIGHT) (get_height img) = Some q ->
  (int q <? 0) = false ->
  forall xs, range 0 WIDTH (int q) = Some xs -> 0 < int q.
Proof.
  intros _ Hneg xs Hr. apply Z.ltb_ge in Hneg.
  unfold range in Hr. destruct (Z.eqb_spec (int q) 0); [discriminate|lia].
Qed.

Lemma set_scenery_ok_inv env filepath w w' :
  set_scenery env filepath w = Ok tt w' ->
  exists img q xs,
    image_files env (asset_path filepath) = Some img /\
    truediv (get_width img * HEIGHT) (get_height img) = Some q /\
    0 < int q /\ range 0 WIDTH (int q) = Some xs /\
    painted_tiles (Some img) = map (fun x => (int q, HEIGHT, (x, 0))) xs.
Proof.
  rewrite set_scenery_cases. cbv zeta.
  destruct (image_files env (asset_path filepath)) as [img|]; [|discriminate].
  destruct (truediv _ _) as [q|] eqn:Hq; [|discriminate].
  destruct (int q <? 0) eqn:Hneg; [discriminate|].
  destruct (range 0 WIDTH (int q)) as [xs|] eqn:Hr; [|discriminate].
  intros _. exists img, q, xs. repeat split; auto.
  - eapply painted_ok_inv; eauto.
  - unfold painted_tiles. now rewrite Hq, Hneg, Hr.
Qed.

Lemma set_background_ok_inv env color filepath w w' :
  set_background env color filepath w = Ok tt w' ->
  exists c img q xs,
    color_of color = Some c /\
    image_files env (asset_path filepath) = Some img /\
    truediv (get_width img * HEIGHT) (get_height img) = Some q /\
    0 < int q /\ range 0 WIDTH (int q) = Some xs /\
    painted_tiles (Some img) = map (fun x => (int q, HEIGHT, (x, 0))) xs.
Proof.
  rewrite set_background_cases. cbv zeta.
  destruct (color_of color) as [c|]; [|discriminate].
  destruct (image_files env (asset_path filepath)) as [img|]; [|discriminate].
  destruct (truediv _ _) as [q|] eqn:Hq; [|discriminate].
  destruct (int q <? 0) eqn:Hneg; [discriminate|].
  destruct (range 0 WIDTH (int q)) as [xs|] eqn:Hr; [|discriminate].
  intros _. exists c, img, q, xs. repeat split; auto.
  - eapply painted_ok_inv; eauto.
  - unfold painted_tiles. now rewrite Hq, Hneg, Hr.
Qed.



(** C8, as stated, fails: an image of 2x3 is rescaled to a width of 426,
    the quotient 1280/3 = 426.67 truncated, where rounding gives 427. *)
Lemma scale_rounds_claim_fails : ~ scale_rounds_claim.
Proof.
  intros H.
  specialize (H Sample.env "clouds.png" (boot []) Sample.clouds
                eq_refl eq_refl).
  vm_compute in H. discriminate H.
Qed.

(** C8, amended: for every loaded image of width [ow >= 0] and height
    [h > 0], the image is rescaled by [set_background] and by
    [set_scenery] to the width [ow * HEIGHT / h] rounded down (the
    quotient truncated, not rounded to nearest) and to the height
    [HEIGHT] exactly, and every tile blitted on the layer has that
    size. *)
Theorem scaled_size_truncates env w :
  (forall color c filepath img,
      color_of color = Some c ->
      image_files env (asset_path filepath) = Some img ->
      0 <= get_width img -> 0 < get_height img ->
      let cs := calls_since w (world_of (set_background env color filepath w)) in
      scales_of cs = [(get_width img, get_height img,
                       (get_width img * HEIGHT / get_height img, HEIGHT))] /\
      forall t, In t (tiles_of BackgroundLayer cs) ->
                fst t = (get_width img * HEIGHT / get_height img, HEIGHT)) /\
  (forall filepath img,
      image_files env (asset_path filepath) = Some img ->
      0 <= get_width img -> 0 < get_height img ->
      let cs := calls_since w (world_of (set_scenery env filepath w)) in
      scales_of cs = [(get_width img, get_height img,
                       (get_width img * HEIGHT / get_height img, HEIGHT))] /\
      forall t, In t (tiles_of SceneryLayer cs) ->
                fst t = (get_width img * HEIGHT / get_height img, HEIGHT)).
Proof.
  assert (forall img, 0 <= get_width img -> 0 < get_height img ->
            painted_scales (Some img)
            = [(get_width img, get_height img,
                (get_width img * HEIGHT / get_height img, HEIGHT))] /\
            forall t, In t (painted_tiles (Some img)) ->
              fst t = (get_width img * HEIGHT / get_height img, HEIGHT))
    as Hpaint.
  { intros img Hw Hh. unfold painted_scales, painted_tiles.
    rewrite truediv_pos by assumption.
    rewrite int_truediv by (unfold HEIGHT; lia). split; [reflexivity|].
    intros t Hin.
    destruct (_ <? 0); [destruct Hin|].
    destruct (range 0 WIDTH _); [|destruct Hin].
    apply in_map_iff in Hin. destruct Hin as (x & <- & _). reflexivity. }
  split.
  - intros color c filepath img Hc Hi Hw Hh cs. subst cs.
    rewrite set_background_scales, set_background_tiles, Hc, Hi.
    now apply Hpaint.
  - intros filepath img Hi Hw Hh cs. subst cs.
    rewrite set_scenery_scales, set_scenery_tiles, Hi.
    now apply Hpaint.
Qed.

Lemma scaled_size_truncates_witness :
  scales_of (calls_since (boot [])
               (world_of (set_scenery Sample.env "clouds.png" (boot []))))
  = [(2, 3, (2 * HEIGHT / 3, HEIGHT))].
Proof.
  apply (proj2 (scaled_size_truncates Sample.env (boot []))
           "clouds.png" Sample.clouds eq_refl).
  - discriminate.
  - reflexivity.
Defined.

(** C10: every tile that [set_scenery] blits on the scenery layer is
    [HEIGHT] = 640 high and is placed at y = [HEIGHT] - 640 = 0, so each
    tile spans the viewport from top to bottom; and for an image with
    positive height whose scaled width is positive the call succeeds
    and blits such tiles. *)
Theorem scenery_tiles_span_viewport env filepath w :
  HEIGHT = 640 /\
  (forall sw sh x y,
      In (sw, sh, (x, y))
         (tiles_of SceneryLayer
            (calls_since w (world_of (set_scenery env filepath w)))) ->
      sh = HEIGHT /\ y = 0) /\
  (forall ow oh sw sh,
      In (ow, oh, (sw, sh))
         (scales_of (calls_since w (world_of (set_scenery env filepath w)))) ->
      sh = HEIGHT) /\
  (forall img,
      image_files env (asset_path filepath) = Some img ->
      0 < get_height img ->
      0 < get_width img * HEIGHT / get_height img ->
      exists w' xs,
        set_scenery env filepath w = Ok tt w' /\
        xs <> [] /\
        tiles_of SceneryLayer (calls_since w w')
        = map (fun x => (get_width img * HEIGHT / get_height img,
                         HEIGHT, (x, 0))) xs).
Proof.
  split; [reflexivity|].
  rewrite set_scenery_tiles, set_scenery_scales.
  split; [|split].
  - intros sw sh x y Hin. unfold painted_tiles in Hin.
    destruct (image_files env (asset_path filepath)); [|destruct Hin].
    destruct (truediv _ _); [|destruct Hin].
    destruct (_ <? 0); [destruct Hin|].
    destruct (range 0 WIDTH _); [|destruct Hin].
    apply in_map_iff in Hin. destruct Hin as (x' & E & _).
    injection E as <- <- <- <-. auto.
  - intros ow oh sw sh Hin. unfold painted_scales in Hin.
    destruct (image_files env (asset_path filepath)); [|destruct Hin].
    destruct (truediv _ _); [|destruct Hin].
    destruct Hin as [E|[]]. now injection E as <- <- <- <-.
  - intros img Hi Hh Hsw.
    assert (0 <= get_width img) as Hw.
    { destruct (Z.le_gt_cases 0 (get_width img)) as [|Hneg]; [assumption|].
      assert (get_width img * HEIGHT / get_height img < 0).
      { apply Z.div_lt_upper_bound; unfold HEIGHT; lia. }
      lia. }
    pose proof (set_scenery_tiles env filepath w) as Ht.
    rewrite set_scenery_cases in *. cbv zeta in *.
    rewrite Hi in *. unfold painted_tiles in Ht.
    rewrite truediv_pos in * by assumption.
    rewrite int_truediv in * by (unfold HEIGHT; lia).
    destruct (Z.ltb_spec (get_width img * HEIGHT / get_height img) 0);
      [lia|].
    rewrite range_tiles in * by assumption.
    eexists. eexists. split; [reflexivity|]. split; [|exact Ht].
    rewrite range_len_tiles by assumption.
    change (0 <? WIDTH) with true. cbv iota.
    assert (0 <= (WIDTH - 1) / (get_width img * HEIGHT / get_height img))
      by (apply Z.div_pos; unfold WIDTH; lia).
    replace (Z.to_nat (_ + 1)) with (S (Z.to_nat ((WIDTH - 1) / (get_width img * HEIGHT / get_height img)))) by lia.
    rewrite seq_S, map_app. simpl. intros E.
    apply app_eq_nil in E. destruct E as [_ E]. discriminate E.
Qed.

Lemma scenery_tiles_span_viewport_witness :
  exists w' xs,
    set_scenery Sample.env "ground.png" (boot []) = Ok tt w' /\
    xs <> [] /\
    tiles_of SceneryLayer (calls_since (boot []) w')
    = map (fun x => (300 * HEIGHT / 200, HEIGHT, (x, 0))) xs.
Proof.
  apply (proj2 (proj2 (proj2
           (scenery_tiles_span_viewport Sample.env "ground.png" (boot []))))
           Sample.ground eq_refl); reflexivity.
Defined.

(** ** Reasoning about runs *)

Section Steady.
Context {A B : Type}.

Lemma steady_ret (a : A) : steady (ret a).
Proof. intros w1 w2. reflexivity. Qed.

Lemma steady_raise (e : Error) : steady (@raise A e).
Proof. intros w1 w2. reflexivity. Qed.

Lemma steady_modify f : steady (modify f).
Proof. intros w1 w2. reflexivity. Qed.

Lemma steady_emit c : steady (emit c).
Proof. intros w1 w2. reflexivity. Qed.

Lemma steady_bind (m : M A) (k : A -> M B) :
  steady m -> (forall a, steady (k a)) -> steady (bind m k).
Proof.
  intros Hm Hk w1 w2. unfold bind. specialize (Hm w1 w2).
  destruct (m w1), (m w2); simpl in Hm; try contradiction.
  - subst. apply Hk.
  - exact Hm.
Qed.

Lemma steady_for_each (xs : list A) (body : A -> M unit) :
  (forall x, steady (body x)) -> steady (for_each xs body).
Proof.
  intros Hb. induction xs as [|x xs IH]; simpl.
  - intros w1 w2. reflexivity.
  - intros w1 w2. unfold bind. specialize (Hb x w1 w2).
    destruct (body x w1), (body x w2); simpl in Hb; try contradiction.
    + apply IH.
    + exact Hb.
Qed.
End Steady.

Ltac steady :=
  repeat first
    [ apply steady_ret | apply steady_raise | apply steady_emit
    | apply steady_modify
    | apply steady_for_each; intros
    | apply steady_bind; [|intros]
    | match goal with
      | |- steady (match ?x with _ => _ end) => destruct x
      end ].

Lemma steady_load env level : steady (load env level).
Proof.
  unfold load, read_json, jsonschema_validate, from_dict_Level, field_value.
  steady.
Qed.

Lemma steady_play_music env p : steady (play_music env p).
Proof. unfold play_music, print. steady. Qed.

Lemma steady_set_background env color p : steady (set_background env color p).
Proof.
  unfold set_background, fill, image_load, py_truediv, transform_scale, py_range, blit.
  steady.
Qed.

Lemma steady_set_scenery env p : steady (set_scenery env p).
Proof.
  unfold set_scenery, image_load, py_truediv, transform_scale, py_range, blit.
  steady.
Qed.

Lemma steady_write env t f c xy : steady (write_centered_text env t f c xy).
Proof.
  unfold write_centered_text, py_truediv, blit, flip. steady.
Qed.

Lemma steady_PlayingState_init env level : steady (PlayingState_init env level).
Proof.
  unfold PlayingState_init.
  apply steady_bind; [apply steady_load|intros lvl].
  apply steady_bind; [apply steady_play_music|intros _].
  apply steady_bind; [apply steady_set_background|intros _].
  apply steady_bind; [apply steady_set_scenery|intros _].
  apply steady_bind; [apply steady_write|intros _].
  apply steady_ret.
Qed.

Section Adds.
Context {A B : Type}.
Variable p : Call -> bool.

Lemma adds_ret (a : A) : adds (ret a) p 0.
Proof. intros w a' w' E. injection E as _ <-. lia. Qed.

Lemma adds_raise (e : Error) n : adds (@raise A e) p n.
Proof. intros w a w' E. discriminate E. Qed.

Lemma adds_silent (f : World -> World) :
  (forall w, trace (f w) = trace w) -> adds (modify f) p 0.
Proof.
  intros Hf w a w' E. injection E as _ <-. unfold tally.
  rewrite Hf. lia.
Qed.

Lemma adds_emit c : adds (emit c) p (if p c then 1 else 0).
Proof.
  intros w a w' E. injection E as _ <-. unfold tally.
  rewrite trace_log, filter_app, length_app. simpl.
  destruct (p c); reflexivity.
Qed.

Lemma adds_bind (m : M A) (k : A -> M B) n1 n2 :
  adds m p n1 -> (forall a, adds (k a) p n2) ->
  adds (bind m k) p (n1 + n2).
Proof.
  intros Hm Hk w b w' E. unfold bind in E.
  destruct (m w) as [a w1|e w1] eqn:Em; [|discriminate E].
  rewrite (Hk a _ _ _ E), (Hm _ _ _ Em). lia.
Qed.

End Adds.

Lemma adds_for_each {A} p (xs : list A) (body : A -> M unit) :
  (forall x, adds (body x) p 0) -> adds (for_each xs body) p 0.
Proof.
  intros Hb. induction xs as [|x xs IH]; simpl.
  - apply adds_ret.
  - apply (adds_bind p (body x) (fun _ => for_each xs body) 0 0).
    + apply Hb.
    + intros _. exact IH.
Qed.

Lemma quiet_ret {A} (a : A) : quiet (ret a).
Proof. intros k. apply adds_ret. Qed.

Lemma quiet_raise {A} e : quiet (@raise A e).
Proof. intros k. apply adds_raise. Qed.

Lemma quiet_bind {A B} (m : M A) (f : A -> M B) :
  quiet m -> (forall a, quiet (f a)) -> quiet (bind m f).
Proof.
  intros Hm Hf k. apply (adds_bind _ m f 0 0); [apply Hm|].
  intros a. apply Hf.
Qed.

Lemma quiet_for_each {A} (xs : list A) (body : A -> M unit) :
  (forall x, quiet (body x)) -> quiet (for_each xs body).
Proof. intros Hb k. apply adds_for_each. intros x. apply Hb. Qed.

Lemma quiet_emit c :
  (forall k, is_effect k c = false) -> quiet (emit c).
Proof.
  intros Hc k. pose proof (adds_emit (is_effect k) c) as H.
  now rewrite Hc in H.
Qed.

Lemma quiet_modify f :
  (forall w, trace (f w) = trace w) -> quiet (modify f).
Proof. intros Hf k. now apply adds_silent. Qed.

Lemma quiet_layer l : quiet (layer l).
Proof.
  intros k w a w' E. injection E as _ <-. lia.
Qed.

Lemma trace_set_layer l s w : trace (set_layer l s w) = trace w.
Proof. reflexivity. Qed.

Ltac quiet :=
  repeat first
    [ apply quiet_ret | apply quiet_raise | apply quiet_layer
    | apply quiet_emit; intros []; reflexivity
    | apply quiet_modify; intros; reflexivity
    | apply quiet_for_each; intros
    | apply quiet_bind; [|intros]
    | match goal with
      | |- quiet (match ?x with _ => _ end) => destruct x
      end ].

Lemma quiet_read_json env path : quiet (read_json env path).
Proof. unfold read_json. quiet. Qed.

Lemma quiet_validate env d s : quiet (jsonschema_validate env d s).
Proof. unfold jsonschema_validate. quiet. Qed.

Lemma quiet_from_dict d : quiet (from_dict_Level d).
Proof. unfold from_dict_Level, field_value. quiet. Qed.

Lemma quiet_blit env t s x y : quiet (blit env t s x y).
Proof. unfold blit. quiet. Qed.

(** Each method announces itself once and is otherwise quiet. *)
Lemma adds_entry {A} c (m : M A) k n :
  (if is_effect k c then 1 else 0)%nat = n ->
  quiet m ->
  adds (bind (emit c) (fun _ => m)) (is_effect k) n.
Proof.
  intros Hc Hm. rewrite <- Hc.
  replace (if is_effect k c then 1 else 0)%nat
    with ((if is_effect k c then 1 else 0) + 0)%nat by lia.
  apply adds_bind; [apply adds_emit|]. intros _. apply Hm.
Qed.

Lemma adds_load env level k :
  adds (load env level) (is_effect k) (counts_load level k).
Proof.
  unfold load. apply adds_entry; [now destruct k|].
  apply quiet_bind; [apply quiet_read_json|intros d].
  apply quiet_bind; [apply quiet_read_json|intros s].
  apply quiet_bind; [apply quiet_validate|intros _].
  apply quiet_from_dict.
Qed.

Lemma adds_play_music env p k :
  adds (play_music env p) (is_effect k) (counts_play_music k).
Proof.
  unfold play_music, print. apply adds_entry; [now destruct k|]. quiet.
Qed.

Lemma adds_set_background env color p k :
  adds (set_background env color p) (is_effect k) (counts_set_background k).
Proof.
  unfold set_background, fill, image_load, py_truediv, transform_scale,
    py_range, flip.
  apply adds_entry; [now destruct k|]. quiet; apply quiet_blit.
Qed.

Lemma adds_set_scenery env p k :
  adds (set_scenery env p) (is_effect k) (counts_set_scenery k).
Proof.
  unfold set_scenery, image_load, py_truediv, transform_scale,
    py_range, flip.
  apply adds_entry; [now destruct k|]. quiet; apply quiet_blit.
Qed.

Lemma adds_write env t f c xy k :
  adds (write_centered_text env t f c xy) (is_effect k) (counts_write k).
Proof.
  unfold write_centered_text, py_truediv, flip.
  apply adds_entry; [now destruct k|]. quiet; apply quiet_blit.
Qed.

(** Building the playing state performs each effect exactly once. *)
Lemma adds_PlayingState_init env level k :
  adds (PlayingState_init env level) (is_effect k) (counts_playing level k).
Proof.
  unfold PlayingState_init.
  replace (counts_playing level k)
    with (counts_load ("world-" ++ str level)%string k + (counts_play_music k +
           (counts_set_background k + (counts_set_scenery k +
             (counts_write k + 0)))))%nat
    by (destruct k; try reflexivity;
        unfold counts_playing, counts_load;
        match goal with
        | |- context [if ?b then _ else _] => destruct b
        end; reflexivity).
  apply adds_bind; [apply adds_load|intros lvl].
  apply adds_bind; [apply adds_play_music|intros _].
  apply adds_bind; [apply adds_set_background|intros _].
  apply adds_bind; [apply adds_set_scenery|intros _].
  apply adds_bind; [apply adds_write|intros _].
  apply adds_ret.
Qed.

Lemma constructs_from_one env level w0 :
  succeeds (PlayingState_init env level w0) = true -> constructs env level.
Proof.
  intros H w. pose proof (steady_PlayingState_init env level w0 w) as S.
  destruct (PlayingState_init env level w0); [|discriminate H].
  destruct (PlayingState_init env level w) as [[] w'|]; [|destruct S].
  now exists w'.
Qed.

(** ** Event handling and the driver loop *)

(** The playing state's handler, case by case. *)
Lemma PlayingState_on_event_cases e w :
  PlayingState_on_event e w =
  if is_quit e || is_keydown e then
    match key e with
    | None => Raise (AttributeError "key") w
    | Some k =>
        if k =? pygame.K_q then Ok tt (set_done true w)
        else if is_keydown e then
          if k =? pygame.K_SPACE then Ok tt (log (Print "Player jump") w)
          else if k =? pygame.K_LEFT then Ok tt (log (Print "Player left") w)
          else if k =? pygame.K_RIGHT then Ok tt (log (Print "Player right") w)
          else Ok tt w
        else Ok tt w
    end
  else Ok tt w.
Proof.
  unfold PlayingState_on_event, case_if, event_key, is_quit, is_keydown,
    bind, ret, raise, print, emit, modify.
  destruct (type e =? pygame.QUIT), (type e =? pygame.KEYDOWN),
    (key e) as [k|]; simpl; try reflexivity;
    destruct (k =? pygame.K_q); try reflexivity;
    destruct (k =? pygame.K_SPACE); try reflexivity;
    destruct (k =? pygame.K_LEFT); try reflexivity;
    destruct (k =? pygame.K_RIGHT); reflexivity.
Qed.

Lemma process_events_unfold env st w :
  process_events env st w
  = for_each (event_queue w) (on_event env st)
      (log EventGet
         (set_events [] (arrivals w) (log (process_events_called st) w))).
Proof. destruct st; reflexivity. Qed.

(** Key-down of the quit key: [done] becomes true, nothing else
    changes. *)
Lemma playing_quit_key_sets_done w :
  PlayingState_on_event (KeyDownEvent pygame.K_q) w = Ok tt (set_done true w).
Proof. reflexivity. Qed.

(** Jump and movement keys are only logged. *)
Lemma playing_movement_keys_only_log w :
  PlayingState_on_event (KeyDownEvent pygame.K_SPACE) w
    = Ok tt (log (Print "Player jump") w) /\
  PlayingState_on_event (KeyDownEvent pygame.K_LEFT) w
    = Ok tt (log (Print "Player left") w) /\
  PlayingState_on_event (KeyDownEvent pygame.K_RIGHT) w
    = Ok tt (log (Print "Player right") w).
Proof. repeat split. Qed.

(** C3, the failing case: in the playing state a quit event does not set
    [done]; reading [event.key] in the guard of the first case raises
    AttributeError, whatever follows in the queue, and [done] is left as
    it was. *)
Theorem playing_quit_event_raises env w rest pending :
  exists w',
    process_events env PlayingState (set_events (QuitEvent :: rest) pending w)
    = Raise (AttributeError "key") w' /\
    done w' = done w /\
    calls_since w w' = [process_events_called PlayingState; EventGet].
Proof.
  rewrite process_events_unfold. simpl. unfold bind.
  rewrite PlayingState_on_event_cases. simpl.
  eexists. split; [reflexivity|]. split; [reflexivity|].
  apply calls_since_app. simpl. now rewrite <- app_assoc.
Qed.

Lemma playing_on_event_total e w :
  carries_key e -> exists w', PlayingState_on_event e w = Ok tt w'.
Proof.
  intros H. rewrite PlayingState_on_event_cases. unfold carries_key in H.
  destruct (is_quit e || is_keydown e); [|eauto].
  destruct (key e) as [k|]; [|now destruct H].
  destruct (k =? pygame.K_q); [eauto|].
  destruct (is_keydown e); [|eauto].
  destruct (k =? pygame.K_SPACE); [eauto|].
  destruct (k =? pygame.K_LEFT); [eauto|].
  destruct (k =? pygame.K_RIGHT); eauto.
Qed.

Lemma playing_events_total events :
  Forall carries_key events ->
  forall w, exists w', for_each events PlayingState_on_event w = Ok tt w'.
Proof.
  induction 1 as [|e events He _ IH]; intros w; simpl.
  - now exists w.
  - unfold bind. destruct (playing_on_event_total e w He) as (w1 & ->).
    apply IH.
Qed.

(** The splash screen's handler, case by case. *)
Lemma SplashScreenState_on_event_cases env e w :
  SplashScreenState_on_event env e w =
  let w0 := log (PrintEvent "splash: " e) w in
  if is_quit e then Ok tt (set_done true w0)
  else if is_keydown e then
    match PlayingState_init env 1 w0 with
    | Ok _ w1 => Ok tt (set_current_state (Some PlayingState) w1)
    | Raise err w1 => Raise err w1
    end
  else Ok tt w0.
Proof.
  unfold SplashScreenState_on_event, is_quit, is_keydown, bind, emit, modify.
  destruct (type e =? pygame.QUIT); [reflexivity|].
  destruct (type e =? pygame.KEYDOWN); reflexivity.
Qed.

Lemma tally_log k c w :
  tally (is_effect k) (log c w)
  = (tally (is_effect k) w + if is_effect k c then 1 else 0)%nat.
Proof.
  unfold tally. rewrite trace_log, filter_app, length_app. simpl.
  destruct (is_effect k c); reflexivity.
Qed.

(** What the splash screen does with a queue of events, when the playing
    state can be built. *)
Lemma splash_events env events :
  (existsb is_keydown events = true -> constructs env 1) ->
  forall w, exists w',
    for_each events (SplashScreenState_on_event env) w = Ok tt w' /\
    (forall k, tally (is_effect k) w'
               = (tally (is_effect k) w
                  + keydowns events * counts_playing 1 k)%nat) /\
    current_state w'
    = (if existsb is_keydown events then Some PlayingState
       else current_state w).
Proof.
  intros Hc.
  assert (forall k s e, is_effect k (PrintEvent s e) = false) as Hp
    by (now destruct k).
  induction events as [|e events IH]; intros w.
  - exists w. split; [reflexivity|]. split; [intros k; simpl; lia|reflexivity].
  - assert (existsb is_keydown events = true -> constructs env 1) as Hc'
      by (intros E; apply Hc; simpl; rewrite E; apply orb_true_r).
    specialize (IH Hc').
    simpl for_each. unfold bind.
    rewrite SplashScreenState_on_event_cases. cbv zeta.
    unfold keydowns. simpl filter. simpl existsb.
    destruct (is_quit e) eqn:Hq.
    + assert (is_keydown e = false) as Hk.
      { unfold is_quit, is_keydown in *. apply Z.eqb_eq in Hq.
        rewrite Hq. reflexivity. }
      rewrite Hk.
      destruct (IH (set_done true (log (PrintEvent "splash: " e) w)))
        as (w' & E & Ht & Hs).
      exists w'. split; [exact E|]. split.
      * intros k. rewrite Ht. fold (keydowns events).
        change (tally (is_effect k) (set_done true ?x))
          with (tally (is_effect k) x).
        rewrite tally_log, Hp. lia.
      * rewrite Hs. reflexivity.
    + destruct (is_keydown e) eqn:Hk.
      * assert (constructs env 1) as Hb
          by (apply Hc; simpl; now rewrite Hk).
        destruct (Hb (log (PrintEvent "splash: " e) w)) as (w1 & E1).
        rewrite E1.
        destruct (IH (set_current_state (Some PlayingState) w1))
          as (w' & E & Ht & Hs).
        exists w'. split; [exact E|]. split.
        -- intros k. rewrite Ht. fold (keydowns events).
           change (tally (is_effect k) (set_current_state ?s ?x))
             with (tally (is_effect k) x).
           rewrite (adds_PlayingState_init env 1 k _ _ _ E1), tally_log, Hp.
           cbn [List.length]. fold (keydowns events).
           rewrite Nat.mul_succ_l. lia.
        -- rewrite Hs. simpl. now destruct (existsb is_keydown events).
      * destruct (IH (log (PrintEvent "splash: " e) w))
          as (w' & E & Ht & Hs).
        exists w'. split; [exact E|]. split.
        -- intros k. rewrite Ht. fold (keydowns events).
           rewrite tally_log, Hp. lia.
        -- rewrite Hs. reflexivity.
Qed.

(** C4, as stated, fails: on the splash screen a key-down builds the
    playing state, and when the file of level 1 is missing the error of
    [load] leaves [process_events]. *)
Lemma event_handling_never_fails_claim_fails :
  ~ event_handling_never_fails_claim.
Proof.
  intros H.
  destruct (H Sample.env_without_world_1 SplashScreenState
              (boot [[KeyDownEvent 97]])) as (w' & E).
  vm_compute in E. discriminate E.
Qed.

(** C4, amended: [process_events] of the playing state completes without
    raising on every queue whose quit and key-down events all carry a
    [key] attribute; [process_events] of the splash screen completes
    without raising on every queue, provided that, when the queue holds
    a key-down, the playing state for level 1 can be built. *)
Theorem process_events_completes env w :
  (Forall carries_key (event_queue w) ->
   exists w', process_events env PlayingState w = Ok tt w') /\
  ((existsb is_keydown (event_queue w) = true -> constructs env 1) ->
   exists w', process_events env SplashScreenState w = Ok tt w').
Proof.
  split; intros H; rewrite process_events_unfold.
  - apply playing_events_total. exact H.
  - destruct (splash_events env (event_queue w) H
                (log EventGet
                   (set_events [] (arrivals w)
                      (log (process_events_called SplashScreenState) w))))
      as (w' & E & _).
    now exists w'.
Qed.

Lemma sample_constructs : constructs Sample.env 1.
Proof.
  apply (constructs_from_one Sample.env 1 (boot [])).
  vm_compute. reflexivity.
Defined.

Lemma process_events_completes_witness :
  (exists w', process_events Sample.env PlayingState
                (boot [[KeyDownEvent pygame.K_SPACE;
                        KeyDownEvent pygame.K_q]]) = Ok tt w') /\
  (exists w', process_events Sample.env SplashScreenState
                (boot [[KeyDownEvent 97]]) = Ok tt w').
Proof.
  split.
  - apply (proj1 (process_events_completes Sample.env _)).
    repeat constructor; discriminate.
  - apply (proj2 (process_events_completes Sample.env _)).
    intros _. exact sample_constructs.
Defined.

(** C5, as stated, fails: with two key-downs in one queue the playing
    state is built twice and the music is started twice. *)
Lemma effects_fire_once_claim_fails : ~ effects_fire_once_claim.
Proof.
  intros H.
  destruct (H Sample.env (boot [[KeyDownEvent 97; KeyDownEvent 98]])
              eq_refl eq_refl) as [_ Ht].
  specialize (Ht PlayMusic (or_introl eq_refl)).
  vm_compute in Ht. discriminate Ht.
Qed.

(** C5, amended: from the splash screen, when the playing state for
    level 1 can be built, [process_events] builds it once per key-down
    event of the queue: each construction-time effect and the load of
    "world-1" fire as many times as the queue has key-downs (exactly
    once for a single key-down), no other level is loaded, and with at
    least one key-down the playing state is the current state
    afterwards. *)
Theorem splash_keydowns_build_playing env w :
  constructs env 1 ->
  exists w',
    process_events env SplashScreenState w = Ok tt w' /\
    (existsb is_keydown (event_queue w) = true ->
     current_state w' = Some PlayingState) /\
    (forall k, tally (is_effect k) w'
               = (tally (is_effect k) w
                  + keydowns (event_queue w) * counts_playing 1 k)%nat) /\
    (keydowns (event_queue w) = 1%nat ->
     forall k, In k (LoadLevel "world-1" :: construction_effects) ->
               tally (is_effect k) w' = (tally (is_effect k) w + 1)%nat).
Proof.
  intros Hc. rewrite process_events_unfold.
  destruct (splash_events env (event_queue w) (fun _ => Hc)
              (log EventGet
                 (set_events [] (arrivals w)
                    (log (process_events_called SplashScreenState) w))))
    as (w' & E & Ht & Hs).
  assert (forall k, tally (is_effect k) w'
                    = (tally (is_effect k) w
                       + keydowns (event_queue w) * counts_playing 1 k)%nat)
    as Ht'.
  { intros k. rewrite Ht, tally_log.
    change (tally (is_effect k) (set_events ?q ?a ?x))
      with (tally (is_effect k) x).
    rewrite tally_log.
    replace (is_effect k EventGet) with false by (now destruct k).
    replace (is_effect k (process_events_called SplashScreenState))
      with false by (now destruct k).
    lia. }
  exists w'. split; [exact E|]. split; [|split].
  - intros Hk. rewrite Hs, Hk. reflexivity.
  - exact Ht'.
  - intros H1 k Hin. rewrite Ht', H1.
    simpl in Hin.
    destruct Hin as [<-|[<-|[<-|[<-|[<-|[]]]]]]; reflexivity.
Qed.

Lemma splash_keydowns_build_playing_witness :
  exists w',
    process_events Sample.env SplashScreenState (boot [[KeyDownEvent 97]])
    = Ok tt w' /\
    current_state w' = Some PlayingState /\
    tally (is_effect PlayMusic) w' = 1%nat.
Proof.
  destruct (splash_keydowns_build_playing Sample.env
              (boot [[KeyDownEvent 97]]) sample_constructs)
    as (w' & E & Hs & _ & H1).
  exists w'. split; [exact E|]. split.
  - apply Hs. reflexivity.
  - apply (H1 eq_refl PlayMusic). simpl. tauto.
Defined.

Lemma loop_S env fuel w :
  done w = false ->
  loop env (S fuel) w = bind (loop_body env) (fun _ => loop env fuel) w.
Proof. intros H. simpl. now rewrite H. Qed.

Lemma loop_done env fuel w : done w = true -> loop env fuel w = Ok true w.
Proof. intros H. destruct fuel; simpl; now rewrite H. Qed.


Lemma loop_body_pass env w st w1 st1 :
  current_state w = Some st ->
  process_events env st w = Ok tt w1 ->
  current_state w1 = Some st1 ->
  loop_body env w = Ok tt (pass_end st1 w1).
Proof.
  intros Hs Hp Hs1. unfold loop_body, bind, the_current_state.
  rewrite Hs, Hp, Hs1. simpl. rewrite Hs1. reflexivity.
Qed.

Lemma calls_of_pass_end st1 w1 :
  calls_since w1 (pass_end st1 w1)
  = [update_called st1; draw_called st1; ClockTick FPS].
Proof. apply calls_since_app. simpl. now rewrite <- !app_assoc. Qed.


(** ** What a layer holds after it is set *)

Lemma layer_blit_world env target img x y w :
  get_layer target (blit_world env target img x y w)
  = Surface_blit (alpha_blend env) (get_layer target w) img x y.
Proof. now destruct target. Qed.

Lemma layer_tiles_on env target img y xs w :
  get_layer target (tiles_on env target img y xs w)
  = painted_layer env (get_layer target w) img y xs.
Proof.
  revert w. unfold tiles_on, painted_layer.
  induction xs as [|x xs IH]; intros w; simpl; [reflexivity|].
  now rewrite IH, layer_blit_world.
Qed.

Lemma layer_composited env target l w :
  target <> Screen ->
  get_layer target (composited env l w) = get_layer target w.
Proof. intros H. destruct target; [now destruct H| |]; reflexivity. Qed.

(** [set_background] paints on the layer filled with the colour. *)
Lemma set_background_layer env color filepath w w' :
  set_background env color filepath w = Ok tt w' ->
  exists c img sw xs,
    color_of color = Some c /\
    image_files env (asset_path filepath) = Some img /\
    range 0 WIDTH sw = Some xs /\
    background_layer w'
    = painted_layer env (Surface_fill (background_layer w) c)
                    (scaled env img sw) 0 xs.
Proof.
  rewrite set_background_cases. cbv zeta.
  destruct (color_of color) as [c|]; [|discriminate].
  destruct (image_files env (asset_path filepath)) as [img|]; [|discriminate].
  destruct (truediv _ _) as [q|]; [|discriminate].
  destruct (int q <? 0); [discriminate|].
  destruct (range 0 WIDTH (int q)) as [xs|] eqn:Hr; [|discriminate].
  intros E. injection E as <-.
  exists c, img, (int q), xs. repeat split; auto.
  change (background_layer ?x) with (get_layer BackgroundLayer x).
  rewrite layer_composited by discriminate.
  rewrite layer_tiles_on. reflexivity.
Qed.

(** [set_scenery] paints on the layer as it was. *)
Lemma set_scenery_layer env filepath w w' :
  set_scenery env filepath w = Ok tt w' ->
  exists img sw xs,
    image_files env (asset_path filepath) = Some img /\
    range 0 WIDTH sw = Some xs /\
    scenery_layer w'
    = painted_layer env (scenery_layer w) (scaled env img sw) 0 xs.
Proof.
  rewrite set_scenery_cases. cbv zeta.
  destruct (image_files env (asset_path filepath)) as [img|]; [|discriminate].
  destruct (truediv _ _) as [q|]; [|discriminate].
  destruct (int q <? 0); [discriminate|].
  destruct (range 0 WIDTH (int q)) as [xs|] eqn:Hr; [|discriminate].
  intros E. injection E as <-.
  exists img, (int q), xs. repeat split; auto.
  change (scenery_layer ?x) with (get_layer SceneryLayer x).
  rewrite layer_composited by discriminate.
  rewrite layer_tiles_on. reflexivity.
Qed.

(** The background layer after [set_background] does not depend on what
    the layer held before. *)
Lemma set_background_refills env color filepath w1 w2 w1' w2' :
  get_width (background_layer w1) = get_width (background_layer w2) ->
  get_height (background_layer w1) = get_height (background_layer w2) ->
  set_background env color filepath w1 = Ok tt w1' ->
  set_background env color filepath w2 = Ok tt w2' ->
  background_layer w1' = background_layer w2'.
Proof.
  intros Hw Hh E1 E2.
  rewrite set_background_cases in E1, E2. cbv zeta in E1, E2.
  destruct (color_of color) as [c|]; [|discriminate].
  destruct (image_files env (asset_path filepath)) as [img|]; [|discriminate].
  destruct (truediv _ _) as [q|]; [|discriminate].
  destruct (int q <? 0); [discriminate|].
  destruct (range 0 WIDTH (int q)) as [xs|] eqn:Hr; [|discriminate].
  injection E1 as <-. injection E2 as <-.
  change (background_layer ?x) with (get_layer BackgroundLayer x).
  rewrite !layer_composited by discriminate.
  rewrite !layer_tiles_on. simpl. unfold Surface_fill. simpl.
  now rewrite Hw, Hh.
Qed.

(** A pixel of the layer that is not transparent is left as it was by
    every tile that is clear over it. *)
Lemma painted_layer_under_clear env img y xs px py :
  clear_keeps env ->
  (forall x, In x xs -> inside img (px - x) (py - y) = true ->
             get_at img (px - x) (py - y) = (0, 0, 0, 0)) ->
  forall base,
    snd (get_at base px py) <> 0 ->
    get_at (painted_layer env base img y xs) px py = get_at base px py.
Proof.
  intros Hb. unfold painted_layer.
  induction xs as [|x xs IH]; intros Himg base Ha; simpl; [reflexivity|].
  assert (get_at (Surface_blit (alpha_blend env) base img x y) px py
          = get_at base px py) as E.
  { simpl. destruct (inside img (px - x) (py - y)) eqn:Hin; [|reflexivity].
    rewrite (Himg x (or_introl eq_refl) Hin). now apply Hb. }
  rewrite IH.
  - exact E.
  - intros x' Hx'. apply Himg. now right.
  - now rewrite E.
Qed.

(** After [set_scenery], a pixel of the scenery layer that was not
    transparent and over which the new tiles are clear still shows what
    it showed before the call. *)
Lemma set_scenery_leaves_pixels_under_clear_tiles env filepath w w' px py :
  clear_keeps env ->
  set_scenery env filepath w = Ok tt w' ->
  snd (get_at (scenery_layer w) px py) <> 0 ->
  (forall img sw x,
      image_files env (asset_path filepath) = Some img ->
      inside (scaled env img sw) (px - x) py = true ->
      get_at (scaled env img sw) (px - x) py = (0, 0, 0, 0)) ->
  get_at (scenery_layer w') px py = get_at (scenery_layer w) px py.
Proof.
  intros Hb Hok Ha Himg.
  destruct (set_scenery_layer _ _ _ _ Hok) as (img & sw & xs & Hi & _ & ->).
  apply painted_layer_under_clear; auto.
  intros x _. rewrite Z.sub_0_r. now apply Himg.
Qed.

Lemma sample_clear_keeps : clear_keeps Sample.env.
Proof.
  intros [[[r g] b] a] Ha. simpl in *.
  destruct (Z.eqb_spec a 0); [contradiction|].
  unfold Sample.blend_comp. rewrite !Z.sub_0_l, !Z.mul_0_r. simpl.
  rewrite Z.sub_0_r. reflexivity.
Qed.

(** C9, the failing case: the program is started and a key is pressed on
    the splash screen.  The splash screen had tiled "ground.png" on the
    scenery layer; the playing state tiles "hills.png", which is
    transparent at column 0, row 500.  Tiled on a cleared layer the
    hills leave that pixel transparent, but after the call the layer
    still shows the green of the ground there. *)
Theorem set_scenery_keeps_previous_content :
  let run := world_of (main Sample.env 1 (boot [[KeyDownEvent 97]])) in
  let cleared := world_of (set_scenery Sample.env "hills.png" (boot [])) in
  current_state run = Some PlayingState /\
  last (filter (is_effect SetScenery) (trace run)) Flip
    = set_scenery_called "hills.png" /\
  get_at (scenery_layer cleared) 0 500 = Sample.clear /\
  get_at (scenery_layer run) 0 500 = Sample.green.
Proof. vm_compute. repeat split. Qed.

(** * What the operations leave alone, and what they draw *)

Section Keeps.
Variable R : World -> World -> Prop.
Hypothesis R_refl : forall w, R w w.
Hypothesis R_trans : forall a b c, R a b -> R b c -> R a c.

Lemma keeps_ret {A} (a : A) : keeps R (ret a).
Proof. intros w. apply R_refl. Qed.

Lemma keeps_raise {A} (e : Error) : keeps R (@raise A e).
Proof. intros w. apply R_refl. Qed.

Lemma keeps_modify f : (forall w, R w (f w)) -> keeps R (modify f).
Proof. intros H w. apply H. Qed.

Lemma keeps_layer l : keeps R (layer l).
Proof. intros w. apply R_refl. Qed.

Lemma keeps_bind {A B} (m : M A) (k : A -> M B) :
  keeps R m -> (forall a, keeps R (k a)) -> keeps R (bind m k).
Proof.
  intros Hm Hk w. unfold bind. specialize (Hm w).
  destruct (m w) as [a w1|e w1]; simpl in *; [|exact Hm].
  eapply R_trans; [exact Hm|apply Hk].
Qed.

Lemma keeps_for_each {A} (xs : list A) (body : A -> M unit) :
  (forall x, keeps R (body x)) -> keeps R (for_each xs body).
Proof.
  intros Hb. induction xs as [|x xs IH]; simpl.
  - apply keeps_ret.
  - apply keeps_bind; [apply Hb|intros _; exact IH].
Qed.
End Keeps.

Lemma agree_refl {X} (f : World -> X) w : agree f w w.
Proof. reflexivity. Qed.

Lemma agree_trans {X} (f : World -> X) a b c :
  agree f a b -> agree f b c -> agree f a c.
Proof. unfold agree. congruence. Qed.

Lemma entries_log c w :
  entries_of (log c w) = entries_of w ++ (if is_entry c then [c] else []).
Proof.
  unfold entries_of. rewrite trace_log, filter_app. simpl.
  now destruct (is_entry c).
Qed.

(** Steps of a proof that a computation keeps an observation: every
    [emit] and [modify] is checked by computation. *)
Ltac keeps_side :=
  solve [ unfold agree; intros; congruence
        | unfold done_stays; intros; auto ].

Ltac keeps_step :=
  first
    [ apply keeps_ret; keeps_side
    | apply keeps_raise; keeps_side
    | apply keeps_layer; keeps_side
    | apply keeps_modify; intros; reflexivity
    | apply keeps_modify; intros; unfold agree; rewrite entries_log;
      apply app_nil_r
    | apply keeps_modify; unfold done_stays; intros; assumption
    | apply keeps_for_each; [keeps_side | keeps_side | intros]
    | apply keeps_bind; [keeps_side | | intros]
    | match goal with
      | |- keeps _ (match ?x with _ => _ end) => destruct x
      end ].

Ltac keeps_agree := repeat keeps_step.

Ltac unfold_engine :=
  unfold load, read_json, jsonschema_validate, from_dict_Level, field_value,
    play_music, print, set_background, set_scenery, write_centered_text,
    fill, image_load, py_truediv, transform_scale, py_range, blit, flip, emit.

(** [load] and [play_music] change nothing but the trace. *)
Lemma load_keeps_driver env level : keeps (agree driver_of) (load env level).
Proof. unfold_engine. keeps_agree. Qed.

Lemma load_keeps_surfaces env level : keeps (agree surfaces_of) (load env level).
Proof. unfold_engine. keeps_agree. Qed.

Lemma play_music_keeps_driver env p : keeps (agree driver_of) (play_music env p).
Proof. unfold_engine. keeps_agree. Qed.

Lemma play_music_keeps_surfaces env p :
  keeps (agree surfaces_of) (play_music env p).
Proof. unfold_engine. keeps_agree. Qed.

Lemma set_background_keeps_driver env c p :
  keeps (agree driver_of) (set_background env c p).
Proof. unfold_engine. keeps_agree. Qed.

Lemma set_background_keeps_sizes env c p :
  keeps (agree sizes_of) (set_background env c p).
Proof. unfold_engine. keeps_agree. Qed.

Lemma set_background_keeps_scenery env c p :
  keeps (agree scenery_layer) (set_background env c p).
Proof. unfold_engine. keeps_agree. Qed.

Lemma set_scenery_keeps_driver env p :
  keeps (agree driver_of) (set_scenery env p).
Proof. unfold_engine. keeps_agree. Qed.

Lemma set_scenery_keeps_sizes env p :
  keeps (agree sizes_of) (set_scenery env p).
Proof. unfold_engine. keeps_agree. Qed.

Lemma set_scenery_keeps_background env p :
  keeps (agree background_layer) (set_scenery env p).
Proof. unfold_engine. keeps_agree. Qed.

Lemma write_keeps_driver env t f c xy :
  keeps (agree driver_of) (write_centered_text env t f c xy).
Proof. unfold_engine. keeps_agree. Qed.

Lemma write_keeps_sizes env t f c xy :
  keeps (agree sizes_of) (write_centered_text env t f c xy).
Proof. unfold_engine. keeps_agree. Qed.

Lemma write_keeps_layers env t f c xy :
  keeps (agree (fun w => (background_layer w, scenery_layer w)))
        (write_centered_text env t f c xy).
Proof. unfold_engine. keeps_agree. Qed.

(** [write_centered_text] fails exactly when [font.render] does, before
    anything is drawn. *)
Lemma write_centered_text_rendered env t f c xy w render :
  font_render env f t c = Rendered render ->
  exists w', write_centered_text env t f c xy w = Ok render w'.
Proof.
  intros E.
  unfold write_centered_text, Font_render, py_truediv, truediv, bind, emit,
    modify, blit, flip, ret.
  rewrite E. cbn [Z.eqb]. eexists. reflexivity.
Qed.

Lemma write_centered_text_not_rendered env t f c xy w e :
  font_render env f t c = NotRendered e ->
  write_centered_text env t f c xy w
  = Raise e (log (FontRender f t c)
               (log (write_centered_text_called t f c xy) w)).
Proof.
  intros E.
  unfold write_centered_text, Font_render, bind, emit, modify, raise.
  now rewrite E.
Qed.

Lemma keeps_weaken (R1 R2 : World -> World -> Prop) {A} (m : M A) :
  (forall w w', R1 w w' -> R2 w w') -> keeps R1 m -> keeps R2 m.
Proof. intros H Hm w. apply H, Hm. Qed.

Lemma state_moves_on_refl w : state_moves_on w w.
Proof. now left. Qed.

Lemma state_moves_on_trans a b c :
  state_moves_on a b -> state_moves_on b c -> state_moves_on a c.
Proof. unfold state_moves_on. intros [H1|H1] [H2|H2]; rewrite ?H2, ?H1; auto. Qed.

(** Building a state leaves what the driver owns and the sizes of the
    surfaces as they were, whether it succeeds or fails. *)
Lemma PlayingState_init_keeps_driver env n :
  keeps (agree driver_of) (PlayingState_init env n).
Proof.
  unfold PlayingState_init.
  apply keeps_bind; [keeps_side|apply load_keeps_driver|intros lvl].
  apply keeps_bind; [keeps_side|apply play_music_keeps_driver|intros _].
  apply keeps_bind; [keeps_side|apply set_background_keeps_driver|intros _].
  apply keeps_bind; [keeps_side|apply set_scenery_keeps_driver|intros _].
  apply keeps_bind; [keeps_side|apply write_keeps_driver|intros _].
  apply keeps_ret. keeps_side.
Qed.

Lemma surfaces_sizes w w' : agree surfaces_of w w' -> agree sizes_of w w'.
Proof.
  unfold agree, surfaces_of, sizes_of. intros E.
  injection E as -> -> ->. reflexivity.
Qed.

Lemma PlayingState_init_keeps_sizes env n :
  keeps (agree sizes_of) (PlayingState_init env n).
Proof.
  unfold PlayingState_init.
  apply keeps_bind; [keeps_side| |intros lvl].
  { apply (keeps_weaken (agree surfaces_of)); [apply surfaces_sizes|].
    apply load_keeps_surfaces. }
  apply keeps_bind; [keeps_side| |intros _].
  { apply (keeps_weaken (agree surfaces_of)); [apply surfaces_sizes|].
    apply play_music_keeps_surfaces. }
  apply keeps_bind; [keeps_side|apply set_background_keeps_sizes|intros _].
  apply keeps_bind; [keeps_side|apply set_scenery_keeps_sizes|intros _].
  apply keeps_bind; [keeps_side|apply write_keeps_sizes|intros _].
  apply keeps_ret. keeps_side.
Qed.

Lemma SplashScreenState_init_keeps_driver env :
  keeps (agree driver_of) (SplashScreenState_init env).
Proof.
  unfold SplashScreenState_init.
  apply keeps_bind; [keeps_side|apply load_keeps_driver|intros lvl].
  apply keeps_bind; [keeps_side|apply play_music_keeps_driver|intros _].
  apply keeps_bind; [keeps_side|apply set_background_keeps_driver|intros _].
  apply keeps_bind; [keeps_side|apply set_scenery_keeps_driver|intros _].
  apply keeps_bind; [keeps_side|apply write_keeps_driver|intros r].
  apply keeps_bind; [keeps_side|apply write_keeps_driver|intros _].
  apply keeps_ret. keeps_side.
Qed.

Lemma SplashScreenState_init_keeps_sizes env :
  keeps (agree sizes_of) (SplashScreenState_init env).
Proof.
  unfold SplashScreenState_init.
  apply keeps_bind; [keeps_side| |intros lvl].
  { apply (keeps_weaken (agree surfaces_of)); [apply surfaces_sizes|].
    apply load_keeps_surfaces. }
  apply keeps_bind; [keeps_side| |intros _].
  { apply (keeps_weaken (agree surfaces_of)); [apply surfaces_sizes|].
    apply play_music_keeps_surfaces. }
  apply keeps_bind; [keeps_side|apply set_background_keeps_sizes|intros _].
  apply keeps_bind; [keeps_side|apply set_scenery_keeps_sizes|intros _].
  apply keeps_bind; [keeps_side|apply write_keeps_sizes|intros r].
  apply keeps_bind; [keeps_side|apply write_keeps_sizes|intros _].
  apply keeps_ret. keeps_side.
Qed.

(** The handlers of the playing state touch neither the surfaces, nor the
    current state, nor the queue. *)
Lemma PlayingState_on_event_keeps e :
  keeps (agree (fun w => (surfaces_of w, current_state w, event_queue w,
                          arrivals w, entries_of w)))
        (PlayingState_on_event e).
Proof.
  intros w. rewrite PlayingState_on_event_cases.
  assert (forall s, entries_of (log (Print s) w) = entries_of w) as Hp
    by (intros s; rewrite entries_log; apply app_nil_r).
  unfold agree.
  destruct (is_quit e || is_keydown e); [|reflexivity].
  destruct (key e) as [k|]; [|reflexivity].
  destruct (k =? pygame.K_q); [reflexivity|].
  destruct (is_keydown e); [|reflexivity].
  destruct (k =? pygame.K_SPACE); [simpl; now rewrite Hp|].
  destruct (k =? pygame.K_LEFT); [simpl; now rewrite Hp|].
  destruct (k =? pygame.K_RIGHT); [simpl; now rewrite Hp|reflexivity].
Qed.

Lemma PlayingState_on_event_done e w w' :
  PlayingState_on_event e w = Ok tt w' ->
  done w' = done w || quit_pressed e.
Proof.
  rewrite PlayingState_on_event_cases. unfold quit_pressed.
  destruct (is_quit e || is_keydown e); simpl.
  2:{ intros E. injection E as <-. now rewrite orb_false_r. }
  destruct (key e) as [k|]; [|discriminate].
  destruct (k =? pygame.K_q).
  { intros E. injection E as <-. simpl. now rewrite orb_true_r. }
  rewrite orb_false_r.
  destruct (is_keydown e); [|intros E; now injection E as <-].
  destruct (k =? pygame.K_SPACE); [intros E; now injection E as <-|].
  destruct (k =? pygame.K_LEFT); [intros E; now injection E as <-|].
  destruct (k =? pygame.K_RIGHT); intros E; now injection E as <-.
Qed.

Lemma playing_events_done events :
  forall w w',
    for_each events PlayingState_on_event w = Ok tt w' ->
    done w' = done w || existsb quit_pressed events.
Proof.
  induction events as [|e events IH]; intros w w'; simpl.
  - intros E. injection E as <-. now rewrite orb_false_r.
  - unfold bind.
    destruct (PlayingState_on_event e w) as [[] w1|] eqn:E1; [|discriminate].
    intros E. rewrite (IH _ _ E), (PlayingState_on_event_done _ _ _ E1).
    now rewrite orb_assoc.
Qed.

(** The world in which the handlers of [process_events] start. *)
Lemma process_events_start_frame st w :
  let w0 := log EventGet
              (set_events [] (arrivals w) (log (process_events_called st) w)) in
  surfaces_of w0 = surfaces_of w /\ current_state w0 = current_state w /\
  done w0 = done w /\ arrivals w0 = arrivals w /\ event_queue w0 = [] /\
  entries_of w0 = entries_of w.
Proof.
  cbv zeta. repeat split.
  unfold entries_of. simpl. rewrite !filter_app. simpl.
  destruct st; simpl; now rewrite !app_nil_r.
Qed.

(** X1: in the playing state [process_events] changes neither a surface nor
    the current state, loads nothing and builds nothing, leaves the queue
    empty, and when it returns [done] is true exactly if it was true
    before or the queue held a press of the quit key. *)
Theorem playing_process_events_effect env w :
  let o := process_events env PlayingState w in
  surfaces_of (world_of o) = surfaces_of w /\
  current_state (world_of o) = current_state w /\
  entries_of (world_of o) = entries_of w /\
  arrivals (world_of o) = arrivals w /\
  event_queue (world_of o) = [] /\
  (succeeds o = true ->
   done (world_of o) = done w || existsb quit_pressed (event_queue w)).
Proof.
  cbv zeta. rewrite process_events_unfold.
  destruct (process_events_start_frame PlayingState w)
    as (Hs & Hc & Hd & Ha & Hq & He).
  cbv zeta in *.
  set (w0 := log EventGet _) in *.
  pose proof (keeps_for_each _ (agree_refl _) (agree_trans _) (event_queue w)
                _ PlayingState_on_event_keeps w0) as K.
  unfold agree in K. simpl on_event.
  assert (forall (x y : Surface * Surface * Surface * option GameState
                        * list Event * list (list Event) * list Call),
            x = y ->
            fst (fst (fst (fst x))) = fst (fst (fst (fst y))) /\
            snd (fst (fst (fst x))) = snd (fst (fst (fst y))) /\
            snd (fst (fst x)) = snd (fst (fst y)) /\
            snd (fst x) = snd (fst y) /\ snd x = snd y) as Hproj
    by (intros x y ->; auto).
  destruct (Hproj _ _ K) as (K1 & K2 & K3 & K4 & K5).
  cbn [fst snd] in K1, K2, K3, K4, K5.
  rewrite K1, K2, K3, K4, K5, Hs, Hc, He, Ha, Hq.
  repeat split.
  destruct (for_each (event_queue w) PlayingState_on_event w0)
    as [[] w'|] eqn:E; [|discriminate].
  intros _. simpl. now rewrite (playing_events_done _ _ _ E), Hd.
Qed.

Lemma playing_process_events_effect_witness :
  let w := boot [[KeyDownEvent pygame.K_SPACE; KeyDownEvent pygame.K_q;
                  KeyDownEvent pygame.K_LEFT]] in
  let o := process_events Sample.env PlayingState w in
  succeeds o = true /\ done (world_of o) = true.
Proof.
  intros w o. split; [reflexivity|].
  destruct (playing_process_events_effect Sample.env w)
    as (_ & _ & _ & _ & _ & H).
  exact (H eq_refl).
Defined.

Lemma driver_of_parts w w' :
  agree driver_of w w' ->
  done w' = done w /\ current_state w' = current_state w /\
  event_queue w' = event_queue w /\ arrivals w' = arrivals w.
Proof.
  unfold agree, driver_of. intros E. injection E as -> -> -> ->. auto.
Qed.

(** The handlers of the splash screen, whatever they do and however they
    end. *)
Lemma SplashScreenState_on_event_frame env e w :
  let w' := world_of (SplashScreenState_on_event env e w) in
  handler_frame w' = handler_frame w /\ done_stays w w' /\
  state_moves_on w w' /\
  (succeeds (SplashScreenState_on_event env e w) = false ->
   done w' = done w /\ current_state w' = current_state w).
Proof.
  cbv zeta. rewrite SplashScreenState_on_event_cases. cbv zeta.
  destruct (is_quit e).
  { simpl. split; [reflexivity|]. split; [intros _; reflexivity|].
    split; [now left|discriminate]. }
  destruct (is_keydown e).
  2:{ simpl. split; [reflexivity|]. split; [intros H; exact H|].
      split; [now left|discriminate]. }
  pose proof (PlayingState_init_keeps_driver env 1
                (log (PrintEvent "splash: " e) w)) as Kd.
  pose proof (PlayingState_init_keeps_sizes env 1
                (log (PrintEvent "splash: " e) w)) as Ks.
  apply driver_of_parts in Kd. destruct Kd as (Hd & Hc & Hq & Ha).
  unfold agree in Ks.
  destruct (PlayingState_init env 1 (log (PrintEvent "splash: " e) w))
    as [[] w1|err w1]; unfold handler_frame, sizes_of in *; simpl in *.
  - split; [|split; [|split]].
    + now rewrite Ks, Hq, Ha.
    + unfold done_stays. simpl. now rewrite Hd.
    + now right.
    + discriminate.
  - split; [|split; [|split]].
    + now rewrite Ks, Hq, Ha.
    + unfold done_stays. now rewrite Hd.
    + left. exact Hc.
    + auto.
Qed.

Lemma on_event_keeps_frame env st e :
  keeps (agree handler_frame) (on_event env st e).
Proof.
  intros w. destruct st; simpl.
  - apply (SplashScreenState_on_event_frame env e w).
  - pose proof (PlayingState_on_event_keeps e w) as K. unfold agree in *.
    unfold handler_frame.
    assert (surfaces_of (world_of (PlayingState_on_event e w)) = surfaces_of w
            /\ event_queue (world_of (PlayingState_on_event e w)) = event_queue w
            /\ arrivals (world_of (PlayingState_on_event e w)) = arrivals w)
      as (Hs & Hq & Ha) by (injection K; intros; repeat split; congruence).
    rewrite Hq, Ha. f_equal. f_equal. now apply surfaces_sizes.
Qed.

Lemma on_event_keeps_state env st e : keeps state_moves_on (on_event env st e).
Proof.
  intros w. destruct st; simpl.
  - apply (SplashScreenState_on_event_frame env e w).
  - left. pose proof (PlayingState_on_event_keeps e w) as K.
    unfold agree in K. injection K; intros; assumption.
Qed.

(** Whatever every handler keeps, and the bookkeeping of the queue and of
    the trace keeps, the driver keeps. *)
Section Driver.
Variable R : World -> World -> Prop.
Hypothesis R_refl : forall w, R w w.
Hypothesis R_trans : forall a b c, R a b -> R b c -> R a c.
Hypothesis R_log : forall c w, R w (log c w).
Hypothesis R_events : forall q a w, R w (set_events q a w).
Variable env : Env.
Hypothesis R_handlers : forall st e, keeps R (on_event env st e).

Lemma process_events_keeps st : keeps R (process_events env st).
Proof.
  intros w. rewrite process_events_unfold.
  eapply R_trans; [|apply (keeps_for_each R R_refl R_trans);
                     intros e; apply R_handlers].
  eapply R_trans; [apply R_log|].
  eapply R_trans; [apply R_events|]. apply R_log.
Qed.

Lemma loop_body_keeps : keeps R (loop_body env).
Proof.
  unfold loop_body, the_current_state, update, draw, clock_tick.
  intros w. unfold bind.
  destruct (current_state w) as [st|]; [|apply R_refl].
  pose proof (process_events_keeps st w) as H1.
  destruct (process_events env st w) as [[] w1|]; [|exact H1].
  simpl in H1. eapply R_trans; [exact H1|].
  destruct (current_state w1) as [st1|] eqn:Hs1; [|apply R_refl].
  simpl. rewrite Hs1. simpl.
  eapply R_trans; [apply R_log|].
  eapply R_trans; [apply R_log|].
  eapply R_trans; [apply R_log|]. apply R_events.
Qed.

Lemma loop_keeps fuel : keeps R (loop env fuel).
Proof.
  induction fuel as [|fuel IH]; intros w; simpl.
  - destruct (done w); apply R_refl.
  - destruct (done w); [apply R_refl|].
    unfold bind. pose proof (loop_body_keeps w) as H1.
    destruct (loop_body env w) as [[] w1|]; [|exact H1].
    eapply R_trans; [exact H1|apply IH].
Qed.
End Driver.



(** X2: a run of the driver loop, however long and however it ends, keeps the
    sizes of the three surfaces, and only ever leaves the current state
    as it is or replaces it by the playing state: nothing leads back to
    the splash screen. *)
Theorem loop_invariants env fuel w :
  let w' := world_of (loop env fuel w) in
  sizes_of w' = sizes_of w /\
  (current_state w' = current_state w \/
   current_state w' = Some PlayingState).
Proof.
  cbv zeta. split.
  - apply (loop_keeps (agree sizes_of) (agree_refl _) (agree_trans _));
      try (intros; reflexivity).
    intros st e. apply (keeps_weaken (agree handler_frame)).
    + unfold agree, handler_frame. intros a b E.
      exact (f_equal (fun t => fst (fst t)) E).
    + apply on_event_keeps_frame.
  - apply (loop_keeps state_moves_on state_moves_on_refl
             state_moves_on_trans); try (intros; now left).
    apply on_event_keeps_state.
Qed.

Lemma idle_events events :
  Forall idle events ->
  Forall carries_key events /\ existsb quit_pressed events = false.
Proof.
  induction 1 as [|e events [Hk Hq] _ [IH1 IH2]]; simpl.
  - split; [constructor|reflexivity].
  - split; [now constructor|]. now rewrite Hq, IH2.
Qed.

(** One call of [process_events] in the playing state, on events that all
    carry their key. *)
Lemma playing_pass env w :
  Forall carries_key (event_queue w) ->
  exists w1,
    process_events env PlayingState w = Ok tt w1 /\
    current_state w1 = current_state w /\
    done w1 = done w || existsb quit_pressed (event_queue w) /\
    arrivals w1 = arrivals w /\ event_queue w1 = [].
Proof.
  intros Hk. rewrite process_events_unfold. simpl on_event.
  destruct (process_events_start_frame PlayingState w)
    as (_ & Hc & Hd & Ha & Hq & _). cbv zeta in *.
  set (w0 := log EventGet _) in *.
  destruct (playing_events_total _ Hk w0) as (w1 & E).
  pose proof (keeps_for_each _ (agree_refl _) (agree_trans _) (event_queue w)
                _ PlayingState_on_event_keeps w0) as K.
  rewrite E in K. unfold agree in K. cbn [world_of] in K.
  exists w1. split; [exact E|].
  rewrite (playing_events_done _ _ _ E), Hd.
  pose proof (f_equal (fun t => snd (fst (fst (fst t)))) K) as K2.
  pose proof (f_equal (fun t => snd (fst (fst t))) K) as K3.
  pose proof (f_equal (fun t => snd (fst t)) K) as K4.
  cbn [fst snd] in K2, K3, K4.
  rewrite K2, K3, K4, Hc, Ha, Hq. auto.
Qed.

(** X3: in the playing state the loop goes on for as long as no press of
    the quit key arrives, and the pass that finds one in the queue is
    the last. *)
Theorem playing_runs_until_quit_key env :
  (forall fuel w,
      current_state w = Some PlayingState -> done w = false ->
      Forall idle (event_queue w) -> Forall (Forall idle) (arrivals w) ->
      exists w', loop env fuel w = Ok false w' /\ done w' = false) /\
  (forall fuel w,
      current_state w = Some PlayingState -> done w = false ->
      Forall carries_key (event_queue w) ->
      existsb quit_pressed (event_queue w) = true ->
      exists w', loop env (S fuel) w = Ok true w' /\ done w' = true).
Proof.
  split.
  - induction fuel as [|fuel IH]; intros w Hs Hd Hq Ha.
    + exists w. simpl. rewrite Hd. auto.
    + destruct (idle_events _ Hq) as [Hk Hn].
      destruct (playing_pass env w Hk) as (w1 & E & Hs1 & Hd1 & Ha1 & Hq1).
      rewrite Hd, Hn in Hd1. rewrite Hs in Hs1. simpl in Hd1.
      rewrite loop_S by assumption. unfold bind.
      rewrite (loop_body_pass env w PlayingState w1 PlayingState Hs E Hs1).
      apply IH.
      * exact Hs1.
      * exact Hd1.
      * unfold pass_end. simpl. rewrite Hq1, Ha1. simpl.
        destruct (arrivals w); [constructor|]. now inversion Ha.
      * unfold pass_end. simpl. rewrite Ha1.
        destruct (arrivals w); [constructor|]. now inversion Ha.
  - intros fuel w Hs Hd Hk Hq.
    destruct (playing_pass env w Hk) as (w1 & E & Hs1 & Hd1 & _).
    rewrite Hd, Hq in Hd1. rewrite Hs in Hs1. simpl in Hd1.
    rewrite loop_S by assumption. unfold bind.
    rewrite (loop_body_pass env w PlayingState w1 PlayingState Hs E Hs1).
    rewrite loop_done by exact Hd1.
    eexists. split; [reflexivity|exact Hd1].
Qed.

Lemma playing_runs_until_quit_key_witness :
  (exists w',
      loop Sample.env 3
        (set_current_state (Some PlayingState)
           (boot [[KeyDownEvent pygame.K_LEFT]; []; [KeyDownEvent 97]]))
      = Ok false w' /\ done w' = false) /\
  (exists w',
      loop Sample.env 1
        (set_current_state (Some PlayingState)
           (boot [[KeyDownEvent pygame.K_SPACE; KeyDownEvent pygame.K_q]]))
      = Ok true w' /\ done w' = true).
Proof.
  split.
  - apply (proj1 (playing_runs_until_quit_key Sample.env) 3%nat);
      try reflexivity.
    + repeat constructor; discriminate.
    + repeat constructor; discriminate.
  - apply (proj2 (playing_runs_until_quit_key Sample.env) 0%nat);
      try reflexivity.
    repeat constructor; discriminate.
Defined.

(** The splash screen on a queue without key-down: nothing is built. *)
Lemma splash_events_without_keydown env events :
  existsb is_keydown events = false ->
  forall w, exists w',
    for_each events (SplashScreenState_on_event env) w = Ok tt w' /\
    done w' = done w || existsb is_quit events /\
    current_state w' = current_state w /\
    surfaces_of w' = surfaces_of w /\
    entries_of w' = entries_of w.
Proof.
  induction events as [|e events IH]; intros Hk w.
  - exists w. simpl. rewrite orb_false_r. auto.
  - simpl in Hk. apply orb_false_iff in Hk. destruct Hk as [Hk Hks].
    simpl for_each. unfold bind.
    rewrite SplashScreenState_on_event_cases. cbv zeta. rewrite Hk.
    assert (entries_of (log (PrintEvent "splash: " e) w) = entries_of w) as Hp
      by (rewrite entries_log; apply app_nil_r).
    destruct (is_quit e) eqn:Hq.
    + destruct (IH Hks (set_done true (log (PrintEvent "splash: " e) w)))
        as (w' & E & Hd & Hc & Hs & He).
      exists w'. split; [exact E|]. simpl in *.
      rewrite Hd, Hc, Hs, He, Hq. destruct (done w); auto.
    + destruct (IH Hks (log (PrintEvent "splash: " e) w))
        as (w' & E & Hd & Hc & Hs & He).
      exists w'. split; [exact E|]. simpl in *.
      rewrite Hd, Hc, Hs, He, Hq. auto.
Qed.

(** X4: closing the window on the splash screen ends the program without a
    level being loaded: with a quit event and no key-down in the queue
    the pass sets [done], builds nothing, whatever the installation, and
    is the last. *)
Theorem splash_quit_ends_loop env fuel w :
  current_state w = Some SplashScreenState -> done w = false ->
  existsb is_keydown (event_queue w) = false ->
  existsb is_quit (event_queue w) = true ->
  exists w',
    loop env (S fuel) w = Ok true w' /\ done w' = true /\
    current_state w' = Some SplashScreenState /\
    surfaces_of w' = surfaces_of w /\ entries_of w' = entries_of w.
Proof.
  intros Hs Hd Hk Hq.
  destruct (process_events_start_frame SplashScreenState w)
    as (Hs0 & Hc0 & Hd0 & _ & _ & He0). cbv zeta in *.
  destruct (splash_events_without_keydown env _ Hk
              (log EventGet
                 (set_events [] (arrivals w)
                    (log (process_events_called SplashScreenState) w))))
    as (w1 & E & Hd1 & Hc1 & Hs1 & He1).
  rewrite Hd0, Hd, Hq in Hd1. rewrite Hc0, Hs in Hc1. simpl in Hd1.
  rewrite loop_S by assumption. unfold bind.
  rewrite (loop_body_pass env w SplashScreenState w1 SplashScreenState Hs)
    by (rewrite ?process_events_unfold; assumption).
  rewrite loop_done by exact Hd1.
  eexists. split; [reflexivity|].
  split; [exact Hd1|]. split; [exact Hc1|]. split.
  - transitivity (surfaces_of w1); [reflexivity|]. now rewrite Hs1.
  - transitivity (entries_of w1); [|now rewrite He1].
    unfold pass_end, entries_of. simpl. rewrite !filter_app. simpl.
    now rewrite !app_nil_r.
Qed.

Lemma splash_quit_ends_loop_witness :
  exists w',
    loop Sample.env_without_world_1 1
      (set_current_state (Some SplashScreenState) (boot [[QuitEvent]]))
    = Ok true w' /\ done w' = true /\
    entries_of w' = [].
Proof.
  destruct (splash_quit_ends_loop Sample.env_without_world_1 0
              (set_current_state (Some SplashScreenState) (boot [[QuitEvent]]))
              eq_refl eq_refl eq_refl eq_refl)
    as (w' & E & Hd & _ & _ & He).
  exists w'. repeat split; assumption.
Defined.

(** X5: the pass in which a key-down on the splash screen builds the playing
    state hands its [update] and its [draw] to the playing state: the
    slot is read again for each call. *)
Theorem transition_pass_updates_new_state env w :
  constructs env 1 ->
  current_state w = Some SplashScreenState ->
  existsb is_keydown (event_queue w) = true ->
  exists w1 w',
    process_events env SplashScreenState w = Ok tt w1 /\
    loop_body env w = Ok tt w' /\
    current_state w' = Some PlayingState /\
    calls_since w1 w'
    = [update_called PlayingState; draw_called PlayingState; ClockTick FPS].
Proof.
  intros Hc Hs Hk.
  destruct (splash_events env (event_queue w) (fun _ => Hc)
              (log EventGet
                 (set_events [] (arrivals w)
                    (log (process_events_called SplashScreenState) w))))
    as (w1 & E & _ & Hs1).
  rewrite Hk in Hs1.
  assert (process_events env SplashScreenState w = Ok tt w1) as Ep
    by (rewrite process_events_unfold; exact E).
  exists w1, (pass_end PlayingState w1).
  split; [exact Ep|]. split; [|split].
  - apply (loop_body_pass env w SplashScreenState w1 PlayingState); assumption.
  - exact Hs1.
  - apply calls_of_pass_end.
Qed.

Lemma transition_pass_updates_new_state_witness :
  exists w1 w',
    process_events Sample.env SplashScreenState
      (set_current_state (Some SplashScreenState) (boot [[KeyDownEvent 97]]))
    = Ok tt w1 /\
    loop_body Sample.env
      (set_current_state (Some SplashScreenState) (boot [[KeyDownEvent 97]]))
    = Ok tt w' /\
    current_state w' = Some PlayingState /\
    calls_since w1 w'
    = [update_called PlayingState; draw_called PlayingState; ClockTick FPS].
Proof.
  apply (transition_pass_updates_new_state Sample.env _ sample_constructs);
    reflexivity.
Defined.

Lemma splash_events_raise env events :
  forall w err w',
    for_each events (SplashScreenState_on_event env) w = Raise err w' ->
    current_state w' = current_state w /\ ~ constructs env 1.
Proof.
  induction events as [|e events IH]; intros w err w'; simpl.
  - discriminate.
  - unfold bind.
    pose proof (SplashScreenState_on_event_frame env e w) as F.
    cbv zeta in F. destruct F as (_ & _ & _ & Hfail).
    rewrite SplashScreenState_on_event_cases in *. cbv zeta in *.
    destruct (is_quit e).
    { intros E. destruct (IH _ _ _ E) as [Hc Hn]. split; [exact Hc|exact Hn]. }
    destruct (is_keydown e).
    2:{ intros E. destruct (IH _ _ _ E) as [Hc Hn]. split; [exact Hc|exact Hn]. }
    destruct (PlayingState_init env 1 (log (PrintEvent "splash: " e) w))
      as [[] w1|err1 w1] eqn:Ei.
    + intros E.
      assert (constructs env 1) as Hc
        by (apply (constructs_from_one env 1 (log (PrintEvent "splash: " e) w));
            now rewrite Ei).
      destruct (splash_events env events (fun _ => Hc)
                  (set_current_state (Some PlayingState) w1)) as (w2 & E2 & _).
      rewrite E2 in E. discriminate E.
    + intros E. injection E as <- <-.
      split; [apply Hfail; reflexivity|].
      intros Hc. destruct (Hc (log (PrintEvent "splash: " e) w)) as (w2 & E2).
      rewrite E2 in Ei. discriminate Ei.
Qed.

(** X6: the new state is put in the slot only once it is built: when
    [process_events] of the splash screen fails, it is because the
    playing state cannot be built in this installation, and the current
    state is still what it was. *)
Theorem failed_transition_keeps_state env w err w' :
  process_events env SplashScreenState w = Raise err w' ->
  current_state w' = current_state w /\ ~ constructs env 1 /\
  existsb is_keydown (event_queue w) = true.
Proof.
  rewrite process_events_unfold. simpl on_event. intros E.
  destruct (splash_events_raise env _ _ _ _ E) as [Hc Hn].
  split; [exact Hc|]. split; [exact Hn|].
  destruct (existsb is_keydown (event_queue w)) eqn:Hk; [reflexivity|].
  destruct (splash_events_without_keydown env _ Hk
              (log EventGet
                 (set_events [] (arrivals w)
                    (log (process_events_called SplashScreenState) w))))
    as (w2 & E2 & _).
  rewrite E2 in E. discriminate E.
Qed.

Lemma failed_transition_keeps_state_witness :
  current_state
    (world_of (process_events Sample.env_without_world_1 SplashScreenState
                 (set_current_state (Some SplashScreenState)
                    (boot [[KeyDownEvent 97]]))))
  = Some SplashScreenState.
Proof.
  apply (failed_transition_keeps_state Sample.env_without_world_1
           (set_current_state (Some SplashScreenState)
              (boot [[KeyDownEvent 97]]))
           (FileNotFoundError "data/level/world-1.json") _ eq_refl).
Defined.

(** X7: a [GameEngine] that was built has [done] false, the splash screen
    as current state, the three surfaces of the size of the viewport and
    the event queue as it found it; and when a font file is missing it
    fails on that file before a level is read or anything is drawn. *)
Theorem GameEngine_init_result env w :
  (forall w', GameEngine_init env w = Ok tt w' ->
     done w' = false /\ current_state w' = Some SplashScreenState /\
     sizes_of w' = (size_of (screen w), (WIDTH, HEIGHT), (WIDTH, HEIGHT)) /\
     event_queue w' = event_queue w /\ arrivals w' = arrivals w) /\
  (forall f, In f [FONT_SM; FONT_MD; FONT_LG] ->
     font_files env (font_file f) = false ->
     exists f', In f' [FONT_SM; FONT_MD; FONT_LG] /\
       font_files env (font_file f') = false /\
       GameEngine_init env w = Raise (FileNotFoundError (font_file f')) w).
Proof.
  split.
  - intros w'. unfold GameEngine_init, load_font, bind, modify.
    destruct (font_files env (font_file FONT_SM)); [|discriminate].
    destruct (font_files env (font_file FONT_MD)); [|discriminate].
    destruct (font_files env (font_file FONT_LG)); [|discriminate].
    unfold ret.
    set (w0 := set_done false _).
    pose proof (SplashScreenState_init_keeps_driver env w0) as Kd.
    pose proof (SplashScreenState_init_keeps_sizes env w0) as Ks.
    apply driver_of_parts in Kd. destruct Kd as (Hd & _ & Hq & Ha).
    unfold agree in Ks.
    destruct (SplashScreenState_init env w0) as [[] w1|]; [|discriminate].
    intros E. injection E as <-. simpl in *.
    rewrite Hd, Hq, Ha. repeat split. exact Ks.
  - intros f Hf Hmiss. unfold GameEngine_init, load_font, bind.
    destruct (font_files env (font_file FONT_SM)) eqn:H1.
    2:{ exists FONT_SM. simpl. auto. }
    destruct (font_files env (font_file FONT_MD)) eqn:H2.
    2:{ exists FONT_MD. simpl. auto. }
    destruct (font_files env (font_file FONT_LG)) eqn:H3.
    2:{ exists FONT_LG. simpl. auto. }
    simpl in Hf. destruct Hf as [<-|[<-|[<-|[]]]]; congruence.
Qed.

Lemma GameEngine_init_result_witness :
  let w := boot [[QuitEvent]] in
  let w' := world_of (GameEngine_init Sample.env w) in
  succeeds (GameEngine_init Sample.env w) = true /\
  done w' = false /\ current_state w' = Some SplashScreenState /\
  sizes_of w' = (size_of (screen w), (WIDTH, HEIGHT), (WIDTH, HEIGHT)) /\
  event_queue w' = event_queue w /\ arrivals w' = arrivals w.
Proof.
  intros w w'. split; [reflexivity|].
  exact (proj1 (GameEngine_init_result Sample.env w) w' eq_refl).
Defined.

(** X8: from the start of the program to wherever a run stops, finished,
    failed or still looping, the screen and the two layers have the size
    of the viewport. *)
Theorem surfaces_keep_viewport_size env fuel pending :
  sizes_of (world_of (main env fuel (boot pending))) = viewport_sizes.
Proof.
  unfold main, bind.
  assert (sizes_of (world_of (GameEngine_init env (boot pending)))
          = viewport_sizes) as Hi.
  { unfold GameEngine_init, load_font, bind, modify.
    destruct (font_files env (font_file FONT_SM)); [|reflexivity].
    destruct (font_files env (font_file FONT_MD)); [|reflexivity].
    destruct (font_files env (font_file FONT_LG)); [|reflexivity].
    unfold ret.
    set (w0 := set_done false _).
    pose proof (SplashScreenState_init_keeps_sizes env w0) as Ks.
    unfold agree in Ks.
    destruct (SplashScreenState_init env w0) as [[] w1|e1 w1];
      cbn [world_of] in *; change (sizes_of w1 = viewport_sizes);
      rewrite Ks; reflexivity. }
  destruct (GameEngine_init env (boot pending)) as [[] w1|]; [|exact Hi].
  simpl in Hi. rewrite <- Hi.
  apply (loop_keeps (agree sizes_of) (agree_refl _) (agree_trans _));
    try (intros; reflexivity).
  intros st e. apply (keeps_weaken (agree handler_frame)).
  - unfold agree, handler_frame. intros a b E.
    exact (f_equal (fun t => fst (fst t)) E).
  - apply on_event_keeps_frame.
Qed.

(** X9: the engines keep to themselves.  [load] and [play_music] change
    nothing but the trace; [set_background] leaves the scenery layer
    alone and [set_scenery] the background layer; [write_centered_text]
    draws on neither layer; and none of them touches [done], the current
    state or the events, whether it succeeds or fails. *)
Theorem engines_keep_to_themselves env w :
  (forall level,
      let w' := world_of (load env level w) in
      driver_of w' = driver_of w /\ surfaces_of w' = surfaces_of w) /\
  (forall p,
      let w' := world_of (play_music env p w) in
      driver_of w' = driver_of w /\ surfaces_of w' = surfaces_of w) /\
  (forall c p,
      let w' := world_of (set_background env c p w) in
      driver_of w' = driver_of w /\ scenery_layer w' = scenery_layer w) /\
  (forall p,
      let w' := world_of (set_scenery env p w) in
      driver_of w' = driver_of w /\ background_layer w' = background_layer w) /\
  (forall t f c xy,
      let w' := world_of (write_centered_text env t f c xy w) in
      driver_of w' = driver_of w /\
      background_layer w' = background_layer w /\
      scenery_layer w' = scenery_layer w).
Proof.
  split; [|split; [|split; [|split]]]; intros; cbv zeta.
  - split; [apply load_keeps_driver|apply load_keeps_surfaces].
  - split; [apply play_music_keeps_driver|apply play_music_keeps_surfaces].
  - split; [apply set_background_keeps_driver
           |apply set_background_keeps_scenery].
  - split; [apply set_scenery_keeps_driver
           |apply set_scenery_keeps_background].
  - split; [apply write_keeps_driver|].
    split.
    + exact (f_equal fst (write_keeps_layers env t f c xy w)).
    + exact (f_equal snd (write_keeps_layers env t f c xy w)).
Qed.

Lemma exact_fields_color d lvl :
  exact_fields d -> verbatim d lvl ->
  forallb is_int (background_color lvl) = true.
Proof.
  intros [_ Hall] (_ & _ & Hc & _).
  destruct (Hall "background_color" T_list_int) as (v & Hv & Hi).
  - simpl. tauto.
  - rewrite Hc in Hv. injection Hv as <-. exact Hi.
Qed.

(** X10: [load] returns a level exactly when both files are there and are
    JSON, the level is an object that passes validation and it has the
    five fields of [Level], no other, correctly typed; the level returned
    then holds the values of the file, and its colour is a list of
    ints. *)
Theorem load_succeeds_exactly_when env level w :
  (succeeds (load env level w) = true <->
   exists d schema,
     json_files env (level_path level) = Doc (JDict d) /\
     json_files env schema_path = Doc schema /\
     validate env (JDict d) schema = Valid /\ exact_fields d) /\
  (forall lvl w', load env level w = Ok lvl w' ->
     forallb is_int (background_color lvl) = true /\
     exists d, json_files env (level_path level) = Doc (JDict d) /\
               verbatim d lvl).
Proof.
  destruct (json_files env (level_path level)) as [| |data] eqn:Hd.
  1,2: unfold load, read_json, bind, emit, modify;
       fold (level_path level); rewrite Hd; simpl;
       (split; [split; [discriminate|intros (d & s & H & _); discriminate H]
               |discriminate]).
  destruct (json_files env schema_path) as [| |schema] eqn:Hs.
  1,2: unfold load, read_json, bind, emit, modify;
       fold (level_path level); fold schema_path; rewrite Hd; simpl;
       rewrite Hs; simpl;
       (split; [split; [discriminate
                       |intros (d & s & _ & H & _); discriminate H]
               |discriminate]).
  rewrite (load_validated env level data schema w Hd Hs).
  destruct (validate env data schema) eqn:Hv.
  2,3: simpl; (split; [split; [discriminate|]|discriminate]);
       intros (d & s & H1 & H2 & H3 & _);
       injection H1 as ->; injection H2 as ->; congruence.
  destruct data as [ |b|n|f|s|l|d];
    try (simpl; (split; [split; [discriminate|]|discriminate]);
         intros (d' & s' & H1 & _); discriminate H1).
  match goal with
  | |- context [from_dict_Level _ ?w0] =>
      destruct (from_dict_Level_spec d w0)
        as [(de & E & Hne) | (lvl & E & Hex & Hvb)]
  end; rewrite E; simpl.
  - split; [split; [discriminate|]|discriminate].
    intros (d' & s & H1 & _ & _ & Hx). injection H1 as <-. now destruct Hne.
  - split; [split; [intros _; now exists d, schema|reflexivity]|].
    intros lvl' w' H. injection H as <- _. split.
    + eapply exact_fields_color; eauto.
    + now exists d.
Qed.

(** X11: each step of [load] is reached only when the steps before it went
    through: a level file that is missing or is not JSON stops it before
    the schema is read, a schema file that is missing or is not JSON
    before anything is validated, and a schema that is itself invalid
    before anything is decoded. *)
Theorem load_stops_at_first_failure env level w :
  (json_files env (level_path level) = NoFile ->
   exists w', load env level w = Raise (FileNotFoundError (level_path level)) w'
     /\ calls_since w w' = [load_called level; ReadText (level_path level)]) /\
  (json_files env (level_path level) = NotJson ->
   exists w', load env level w = Raise (JSONDecodeError (level_path level)) w'
     /\ calls_since w w' = [load_called level; ReadText (level_path level)]) /\
  (forall data,
      json_files env (level_path level) = Doc data ->
      (json_files env schema_path = NoFile ->
       exists w', load env level w = Raise (FileNotFoundError schema_path) w'
         /\ calls_since w w' = [load_called level; ReadText (level_path level);
                                ReadText schema_path]) /\
      (json_files env schema_path = NotJson ->
       exists w', load env level w = Raise (JSONDecodeError schema_path) w'
         /\ calls_since w w' = [load_called level; ReadText (level_path level);
                                ReadText schema_path]) /\
      (forall schema,
          json_files env schema_path = Doc schema ->
          validate env data schema = BadSchema ->
          exists w', load env level w = Raise SchemaError w'
            /\ calls_since w w' = gate_calls level data schema)).
Proof.
  split; [|split].
  - intros Hd. unfold load, read_json, bind, emit, modify.
    fold (level_path level). rewrite Hd. simpl.
    eexists. split; [reflexivity|].
    apply calls_since_app. simpl. now rewrite <- !app_assoc.
  - intros Hd. unfold load, read_json, bind, emit, modify.
    fold (level_path level). rewrite Hd. simpl.
    eexists. split; [reflexivity|].
    apply calls_since_app. simpl. now rewrite <- !app_assoc.
  - intros data Hd. split; [|split].
    + intros Hs. unfold load, read_json, bind, emit, modify.
      fold (level_path level). fold schema_path. rewrite Hd. simpl.
      rewrite Hs. simpl. eexists. split; [reflexivity|].
      apply calls_since_app. simpl. now rewrite <- !app_assoc.
    + intros Hs. unfold load, read_json, bind, emit, modify.
      fold (level_path level). fold schema_path. rewrite Hd. simpl.
      rewrite Hs. simpl. eexists. split; [reflexivity|].
      apply calls_since_app. simpl. now rewrite <- !app_assoc.
    + intros schema Hs Hv.
      rewrite (load_validated env level data schema w Hd Hs), Hv.
      eexists. split; [reflexivity|].
      apply calls_since_app. simpl. now rewrite <- !app_assoc.
Qed.

Lemma load_stops_at_first_failure_witness :
  exists w',
    load Sample.env "world-2" (boot [])
    = Raise (FileNotFoundError "data/level/world-2.json") w' /\
    calls_since (boot []) w'
    = [load_called "world-2"; ReadText "data/level/world-2.json"].
Proof.
  apply (proj1 (load_stops_at_first_failure Sample.env "world-2" (boot []))).
  reflexivity.
Defined.

Lemma load_succeeds_exactly_when_witness :
  succeeds (load Sample.env "splash" (boot [])) = true /\
  succeeds (load Sample.env "extra" (boot [])) = false.
Proof.
  split.
  - apply (proj1 (load_succeeds_exactly_when Sample.env "splash" (boot []))).
    exists splash_entries, Sample.level_schema.
    repeat split; try reflexivity; apply splash_exact.
  - destruct (succeeds (load Sample.env "extra" (boot []))) eqn:E;
      [|reflexivity].
    apply (proj1 (load_succeeds_exactly_when Sample.env "extra" (boot []))) in E.
    destruct E as (d & s & H1 & _ & _ & Hx).
    injection H1 as <-.
    destruct (proj1 Hx "difficulty") as [H|[H|[H|[H|[H|[]]]]]];
      [simpl; tauto|discriminate H..].
Defined.

Lemma painted_layer_app env base img y xs1 xs2 :
  painted_layer env base img y (xs1 ++ xs2)
  = painted_layer env (painted_layer env base img y xs1) img y xs2.
Proof. unfold painted_layer. apply fold_left_app. Qed.

Lemma painted_pixel_untouched env img y xs px py :
  (forall x, In x xs -> inside img (px - x) (py - y) = false) ->
  forall base,
    get_at (painted_layer env base img y xs) px py = get_at base px py.
Proof.
  unfold painted_layer.
  induction xs as [|x xs IH]; intros Hout base; simpl; [reflexivity|].
  rewrite IH by (intros x' Hx'; apply Hout; now right).
  simpl. now rewrite (Hout x (or_introl eq_refl)).
Qed.

Lemma painted_pixel_once env img y xs1 x xs2 px py base :
  (forall x', In x' xs1 -> inside img (px - x') (py - y) = false) ->
  inside img (px - x) (py - y) = true ->
  (forall x', In x' xs2 -> inside img (px - x') (py - y) = false) ->
  get_at (painted_layer env base img y (xs1 ++ x :: xs2)) px py
  = alpha_blend env (get_at img (px - x) (py - y)) (get_at base px py).
Proof.
  intros H1 Hin H2.
  rewrite painted_layer_app.
  change (painted_layer env ?b img y (x :: xs2))
    with (painted_layer env (Surface_blit (alpha_blend env) b img x y) img y xs2).
  rewrite painted_pixel_untouched by assumption.
  simpl. rewrite Hin. now rewrite painted_pixel_untouched.
Qed.

Lemma inside_scaled env img sw a b :
  inside (scaled env img sw) a b
  = (0 <=? a) && (a <? sw) && (0 <=? b) && (b <? HEIGHT).
Proof. reflexivity. Qed.

(** Every pixel under the row of tiles is drawn by exactly one of them. *)
Lemma tiles_pixel env img sw n base px py :
  0 < sw -> 0 <= px < Z.of_nat n * sw -> 0 <= py < HEIGHT ->
  get_at (painted_layer env base (scaled env img sw) 0
            (map (fun i => Z.of_nat i * sw) (seq 0 n))) px py
  = alpha_blend env (get_at (scaled env img sw) (px mod sw) py)
                (get_at base px py).
Proof.
  intros Hsw Hpx Hpy.
  assert (0 <= px / sw) as Hq by (apply Z.div_pos; lia).
  assert (px / sw < Z.of_nat n) as Hlt
    by (apply Z.div_lt_upper_bound; lia).
  pose proof (Z.mod_pos_bound px sw Hsw) as Hm.
  pose proof (Z.div_mod px sw) as Hdm.
  set (i0 := Z.to_nat (px / sw)).
  assert (Z.of_nat i0 = px / sw) as Hi0 by (unfold i0; lia).
  replace n with (i0 + S (n - S i0))%nat by lia.
  rewrite seq_app, map_app. simpl seq. rewrite map_cons.
  assert (px - Z.of_nat i0 * sw = px mod sw) as Hoff by (rewrite Hi0; lia).
  rewrite painted_pixel_once.
  - rewrite Z.sub_0_r, Hoff. reflexivity.
  - intros x Hx. apply in_map_iff in Hx. destruct Hx as (i & <- & Hi).
    apply in_seq in Hi. rewrite inside_scaled.
    assert (Z.of_nat i < Z.of_nat i0) by lia.
    destruct (Z.ltb_spec (px - Z.of_nat i * sw) sw); [nia|].
    now rewrite andb_false_r.
  - rewrite inside_scaled, Hoff, Z.sub_0_r.
    destruct (Z.leb_spec 0 (px mod sw)); [|lia].
    destruct (Z.ltb_spec (px mod sw) sw); [|lia].
    destruct (Z.leb_spec 0 py); [|lia].
    destruct (Z.ltb_spec py HEIGHT); [reflexivity|lia].
  - intros x Hx. apply in_map_iff in Hx. destruct Hx as (i & <- & Hi).
    apply in_seq in Hi. rewrite inside_scaled.
    assert (Z.of_nat i0 < Z.of_nat i) by lia.
    destruct (Z.leb_spec 0 (px - Z.of_nat i * sw)); [nia|reflexivity].
Qed.

Lemma tiles_reach_the_edge sw :
  0 < sw -> WIDTH <= Z.of_nat (Z.to_nat (range_len 0 WIDTH sw)) * sw.
Proof.
  intros Hsw. rewrite range_len_tiles by assumption.
  change (0 <? WIDTH) with true. cbv iota.
  assert (0 <= (WIDTH - 1) / sw) by (apply Z.div_pos; unfold WIDTH; lia).
  rewrite Z2Nat.id by lia.
  pose proof (Z.mod_pos_bound (WIDTH - 1) sw Hsw).
  pose proof (Z.div_mod (WIDTH - 1) sw). nia.
Qed.

(** X12: what each layer shows after it is set.  Inside the viewport every
    pixel is drawn by exactly one tile: the background layer shows the
    rescaled image, repeated every [sw] columns, blended over the
    colour; the scenery layer shows it blended over what the layer
    showed before. *)
Theorem tiled_layer_pixels env w w' :
  (forall color filepath,
      set_background env color filepath w = Ok tt w' ->
      exists c img q,
        color_of color = Some c /\
        image_files env (asset_path filepath) = Some img /\
        truediv (get_width img * HEIGHT) (get_height img) = Some q /\
        0 < int q /\
        forall x y, 0 <= x < WIDTH -> 0 <= y < HEIGHT ->
          get_at (background_layer w') x y
          = alpha_blend env
              (get_at (scaled env img (int q)) (x mod int q) y) c) /\
  (forall filepath,
      set_scenery env filepath w = Ok tt w' ->
      exists img q,
        image_files env (asset_path filepath) = Some img /\
        truediv (get_width img * HEIGHT) (get_height img) = Some q /\
        0 < int q /\
        forall x y, 0 <= x < WIDTH -> 0 <= y < HEIGHT ->
          get_at (scenery_layer w') x y
          = alpha_blend env
              (get_at (scaled env img (int q)) (x mod int q) y)
              (get_at (scenery_layer w) x y)).
Proof.
  split.
  - intros color filepath. rewrite set_background_cases. cbv zeta.
    destruct (color_of color) as [c|]; [|discriminate].
    destruct (image_files env (asset_path filepath)) as [img|]; [|discriminate].
    destruct (truediv _ _) as [q|] eqn:Hq; [|discriminate].
    destruct (int q <? 0) eqn:Hneg; [discriminate|].
    destruct (range 0 WIDTH (int q)) as [xs|] eqn:Hr; [|discriminate].
    intros E. injection E as <-.
    assert (0 < int q) as Hpos by (eapply painted_ok_inv; eauto).
    exists c, img, q. repeat split; auto.
    intros x y Hx Hy.
    change (background_layer ?z) with (get_layer BackgroundLayer z).
    rewrite layer_composited by discriminate. rewrite layer_tiles_on.
    rewrite range_tiles in Hr by assumption. injection Hr as <-.
    rewrite tiles_pixel; [reflexivity|assumption| |assumption].
    pose proof (tiles_reach_the_edge (int q) Hpos). lia.
  - intros filepath. rewrite set_scenery_cases. cbv zeta.
    destruct (image_files env (asset_path filepath)) as [img|]; [|discriminate].
    destruct (truediv _ _) as [q|] eqn:Hq; [|discriminate].
    destruct (int q <? 0) eqn:Hneg; [discriminate|].
    destruct (range 0 WIDTH (int q)) as [xs|] eqn:Hr; [|discriminate].
    intros E. injection E as <-.
    assert (0 < int q) as Hpos by (eapply painted_ok_inv; eauto).
    exists img, q. repeat split; auto.
    intros x y Hx Hy.
    change (scenery_layer ?z) with (get_layer SceneryLayer z).
    rewrite layer_composited by discriminate. rewrite layer_tiles_on.
    rewrite range_tiles in Hr by assumption. injection Hr as <-.
    rewrite tiles_pixel; [reflexivity|assumption| |assumption].
    pose proof (tiles_reach_the_edge (int q) Hpos). lia.
Qed.

Lemma tiled_layer_pixels_witness :
  exists img q,
    image_files Sample.env (asset_path "hills.png") = Some img /\
    truediv (get_width img * HEIGHT) (get_height img) = Some q /\
    0 < int q /\
    forall x y, 0 <= x < WIDTH -> 0 <= y < HEIGHT ->
      get_at (scenery_layer
                (world_of (set_scenery Sample.env "hills.png" (boot [])))) x y
      = alpha_blend Sample.env
          (get_at (scaled Sample.env img (int q)) (x mod int q) y)
          (get_at (scenery_layer (boot [])) x y).
Proof.
  apply (proj2 (tiled_layer_pixels Sample.env (boot []) _) "hills.png" eq_refl).
Defined.

Lemma screen_tiles_on env target img y xs w :
  target <> Screen -> screen (tiles_on env target img y xs w) = screen w.
Proof.
  intros Ht. revert w. unfold tiles_on.
  induction xs as [|x xs IH]; intros w; simpl; [reflexivity|].
  rewrite IH. destruct target; [now destruct Ht| |]; reflexivity.
Qed.

Lemma screen_composited env l w x y :
  get_at (screen (composited env l w)) x y
  = if inside (get_layer l w) x y
    then alpha_blend env (get_at (get_layer l w) x y) (get_at (screen w) x y)
    else get_at (screen w) x y.
Proof. unfold composited. simpl. now rewrite !Z.sub_0_r. Qed.

(** X13: each operation ends by putting its layer on the screen: where the
    layer lies, the screen shows the layer blended over what the screen
    showed before, and elsewhere the screen is as it was.  So after
    [set_background] and then [set_scenery] the scenery is over the
    background. *)
Theorem layer_is_composited_on_screen env w w' :
  (forall color filepath,
      set_background env color filepath w = Ok tt w' ->
      forall x y,
        get_at (screen w') x y
        = if inside (background_layer w') x y
          then alpha_blend env (get_at (background_layer w') x y)
                           (get_at (screen w) x y)
          else get_at (screen w) x y) /\
  (forall filepath,
      set_scenery env filepath w = Ok tt w' ->
      forall x y,
        get_at (screen w') x y
        = if inside (scenery_layer w') x y
          then alpha_blend env (get_at (scenery_layer w') x y)
                           (get_at (screen w) x y)
          else get_at (screen w) x y).
Proof.
  split.
  - intros color filepath. rewrite set_background_cases. cbv zeta.
    destruct (color_of color) as [c|]; [|discriminate].
    destruct (image_files env (asset_path filepath)) as [img|]; [|discriminate].
    destruct (truediv _ _) as [q|]; [|discriminate].
    destruct (int q <? 0); [discriminate|].
    destruct (range 0 WIDTH (int q)) as [xs|]; [|discriminate].
    intros E x y. injection E as <-.
    rewrite screen_composited.
    change (background_layer ?z) with (get_layer BackgroundLayer z).
    rewrite layer_composited by discriminate.
    rewrite screen_tiles_on by discriminate. reflexivity.
  - intros filepath. rewrite set_scenery_cases. cbv zeta.
    destruct (image_files env (asset_path filepath)) as [img|]; [|discriminate].
    destruct (truediv _ _) as [q|]; [|discriminate].
    destruct (int q <? 0); [discriminate|].
    destruct (range 0 WIDTH (int q)) as [xs|]; [|discriminate].
    intros E x y. injection E as <-.
    rewrite screen_composited.
    change (scenery_layer ?z) with (get_layer SceneryLayer z).
    rewrite layer_composited by discriminate.
    rewrite screen_tiles_on by discriminate. reflexivity.
Qed.

Lemma layer_is_composited_on_screen_witness :
  let w := boot [] in
  let w' := world_of (set_scenery Sample.env "ground.png" w) in
  get_at (screen w') 0 500
  = if inside (scenery_layer w') 0 500
    then alpha_blend Sample.env (get_at (scenery_layer w') 0 500)
                     (get_at (screen w) 0 500)
    else get_at (screen w) 0 500.
Proof.
  intros w w'.
  exact (proj2 (layer_is_composited_on_screen Sample.env w w')
               "ground.png" eq_refl 0 500).
Defined.

Lemma set_scenery_raise_frame env filepath w err w' :
  set_scenery env filepath w = Raise err w' ->
  surfaces_of w' = surfaces_of w.
Proof.
  rewrite set_scenery_cases. cbv zeta.
  destruct (image_files env (asset_path filepath)) as [img|];
    [|intros E; now injection E as _ <-].
  destruct (truediv _ _) as [q|]; [|intros E; now injection E as _ <-].
  destruct (int q <? 0); [intros E; now injection E as _ <-|].
  destruct (range 0 WIDTH (int q)) as [xs|];
    [discriminate|intros E; now injection E as _ <-].
Qed.

Lemma set_background_raise_frame env color filepath w err w' :
  set_background env color filepath w = Raise err w' ->
  screen w' = screen w /\ scenery_layer w' = scenery_layer w /\
  background_layer w'
  = match color_of color with
    | Some c => Surface_fill (background_layer w) c
    | None => background_layer w
    end.
Proof.
  rewrite set_background_cases. cbv zeta.
  destruct (color_of color) as [c|]; [|intros E; now injection E as _ <-].
  destruct (image_files env (asset_path filepath)) as [img|];
    [|intros E; now injection E as _ <-].
  destruct (truediv _ _) as [q|]; [|intros E; now injection E as _ <-].
  destruct (int q <? 0); [intros E; now injection E as _ <-|].
  destruct (range 0 WIDTH (int q)) as [xs|];
    [discriminate|intros E; now injection E as _ <-].
Qed.

(** X14: a call of [set_scenery] that fails has drawn nothing: the screen and
    both layers are as they were.  A call of [set_background] that fails
    has left the screen and the scenery layer as they were, but when the
    colour was accepted the background layer is already filled with
    it. *)
Theorem failed_set_leaves_screen env w err w' :
  (forall filepath,
      set_scenery env filepath w = Raise err w' ->
      surfaces_of w' = surfaces_of w) /\
  (forall color filepath,
      set_background env color filepath w = Raise err w' ->
      screen w' = screen w /\ scenery_layer w' = scenery_layer w /\
      background_layer w'
      = match color_of color with
        | Some c => Surface_fill (background_layer w) c
        | None => background_layer w
        end).
Proof.
  split.
  - intros filepath. apply set_scenery_raise_frame.
  - intros color filepath. apply set_background_raise_frame.
Qed.

Lemma failed_set_leaves_screen_witness :
  surfaces_of (world_of (set_scenery Sample.env "moon.png" (boot [])))
  = surfaces_of (boot []).
Proof.
  apply (proj1 (failed_set_leaves_screen Sample.env (boot [])
                  (FileNotFoundError "data/assets/backgrounds/moon.png") _)
               "moon.png" eq_refl).
Defined.

(** X15: which images [set_scenery] can tile.  For an image that is found,
    of width [ow >= 0] and height [h >= 0]: a height of 0 raises
    ZeroDivisionError; an image so narrow that [ow * HEIGHT < h] is
    rescaled to a width of 0, and the step 0 of [range] raises
    ValueError; every other image is tiled. *)
Theorem set_scenery_needs_a_wide_enough_image env filepath w img :
  image_files env (asset_path filepath) = Some img ->
  0 <= get_width img -> 0 <= get_height img ->
  (get_height img = 0 ->
   exists w', set_scenery env filepath w = Raise ZeroDivisionError w') /\
  (0 < get_height img -> get_width img * HEIGHT < get_height img ->
   exists w', set_scenery env filepath w = Raise range_failure w' /\
              scales_of (calls_since w w')
              = [(get_width img, get_height img, (0, HEIGHT))]) /\
  (0 < get_height img <= get_width img * HEIGHT ->
   exists w', set_scenery env filepath w = Ok tt w').
Proof.
  intros Hi Hw Hh.
  pose proof (set_scenery_scales env filepath w) as Hsc.
  rewrite set_scenery_cases in *. cbv zeta in *. rewrite Hi in *.
  unfold painted_scales in Hsc.
  split; [|split].
  - intros H0. unfold truediv. rewrite H0. simpl. eauto.
  - intros Hpos Hlt.
    rewrite truediv_pos in * by assumption.
    rewrite int_truediv in * by (unfold HEIGHT in *; lia).
    rewrite Z.div_small in * by (unfold HEIGHT in *; lia).
    simpl. eexists. split; [reflexivity|exact Hsc].
  - intros [Hpos Hle].
    rewrite truediv_pos in * by assumption.
    rewrite int_truediv in * by (unfold HEIGHT in *; lia).
    assert (0 < get_width img * HEIGHT / get_height img) as Hq
      by (apply Z.div_str_pos; lia).
    destruct (Z.ltb_spec (get_width img * HEIGHT / get_height img) 0); [lia|].
    rewrite range_tiles by assumption. eauto.
Qed.

Lemma set_scenery_needs_a_wide_enough_image_witness :
  exists w', set_scenery Sample.env "hills.png" (boot []) = Ok tt w'.
Proof.
  apply (proj2 (proj2 (set_scenery_needs_a_wide_enough_image Sample.env
                         "hills.png" (boot []) Sample.hills eq_refl
                         ltac:(discriminate) ltac:(discriminate)))).
  split; [reflexivity|discriminate].
Defined.

(** X16: how many tiles are drawn: for a rescaled image [sw] wide,
    [WIDTH / sw] rounded up, so one tile when the image is at least as
    wide as the viewport; and the last tile ends at the right edge
    exactly when [sw] divides [WIDTH]. *)
Theorem tile_count env w w' :
  (forall color filepath,
      set_background env color filepath w = Ok tt w' ->
      exists sw xs,
        0 < sw /\
        tiles_of BackgroundLayer (calls_since w w')
        = map (fun x => (sw, HEIGHT, (x, 0))) xs /\
        Z.of_nat (List.length xs) = (WIDTH + sw - 1) / sw /\
        (WIDTH <= sw -> xs = [0]) /\
        (last xs 0 + sw = WIDTH <-> WIDTH mod sw = 0)) /\
  (forall filepath,
      set_scenery env filepath w = Ok tt w' ->
      exists sw xs,
        0 < sw /\
        tiles_of SceneryLayer (calls_since w w')
        = map (fun x => (sw, HEIGHT, (x, 0))) xs /\
        Z.of_nat (List.length xs) = (WIDTH + sw - 1) / sw /\
        (WIDTH <= sw -> xs = [0]) /\
        (last xs 0 + sw = WIDTH <-> WIDTH mod sw = 0)).
Proof.
  assert (forall sw xs, 0 < sw -> range 0 WIDTH sw = Some xs ->
            Z.of_nat (List.length xs) = (WIDTH + sw - 1) / sw /\
            (WIDTH <= sw -> xs = [0]) /\
            (last xs 0 + sw = WIDTH <-> WIDTH mod sw = 0)) as Hcount.
  { intros sw xs Hsw Hr. rewrite range_tiles in Hr by assumption.
    injection Hr as <-. rewrite range_len_tiles by assumption.
    change (0 <? WIDTH) with true. cbv iota.
    assert (0 <= (WIDTH - 1) / sw) as Hq
      by (apply Z.div_pos; unfold WIDTH; lia).
    rewrite length_map, length_seq.
    replace (WIDTH + sw - 1) with (WIDTH - 1 + 1 * sw) by lia.
    rewrite Z.div_add by lia.
    split; [lia|]. split.
    - intros Hle. rewrite Z.div_small by (unfold WIDTH in *; lia).
      reflexivity.
    - replace (Z.to_nat ((WIDTH - 1) / sw + 1))
        with (S (Z.to_nat ((WIDTH - 1) / sw))) by lia.
      rewrite last_map_seq, Z2Nat.id by assumption.
      pose proof (Z.mod_pos_bound (WIDTH - 1) sw Hsw) as Hm.
      pose proof (Z.div_mod (WIDTH - 1) sw) as Hdm.
      split.
      + intros E. apply Z.mod_divide; [lia|].
        exists ((WIDTH - 1) / sw + 1). lia.
      + intros E. apply Z.mod_divide in E; [|lia]. destruct E as [k Hk].
        assert ((WIDTH - 1) / sw = k - 1) as ->; [|lia].
        symmetry. apply (Z.div_unique _ _ _ (sw - 1)); lia. }
  split.
  - intros color filepath Hok.
    destruct (set_background_ok_inv _ _ _ _ _ Hok)
      as (c & img & q & xs & Hc & Hi & Hq & Hpos & Hr & Ht).
    exists (int q), xs. split; [assumption|]. split; [|now apply Hcount].
    pose proof (set_background_tiles env color filepath w) as E.
    rewrite Hok, Hc, Hi, Ht in E. exact E.
  - intros filepath Hok.
    destruct (set_scenery_ok_inv _ _ _ _ Hok)
      as (img & q & xs & Hi & Hq & Hpos & Hr & Ht).
    exists (int q), xs. split; [assumption|]. split; [|now apply Hcount].
    pose proof (set_scenery_tiles env filepath w) as E.
    rewrite Hok, Hi, Ht in E. exact E.
Qed.

Lemma tile_count_witness :
  exists sw xs,
    0 < sw /\
    tiles_of SceneryLayer
      (calls_since (boot [])
         (world_of (set_scenery Sample.env "hills.png" (boot []))))
    = map (fun x => (sw, HEIGHT, (x, 0))) xs /\
    Z.of_nat (List.length xs) = (WIDTH + sw - 1) / sw /\
    (WIDTH <= sw -> xs = [0]) /\
    (last xs 0 + sw = WIDTH <-> WIDTH mod sw = 0).
Proof.
  apply (proj2 (tile_count Sample.env (boot []) _) "hills.png" eq_refl).
Defined.

Lemma int_centre c width :
  int (inject_Z c - (width * Z.sgn 2 # Z.to_pos (Z.abs 2)))
  = Z.quot (2 * c - width) 2.
Proof.
  unfold int. cbn [Qminus Qplus Qopp Qnum Qden inject_Z Z.sgn Z.abs Z.to_pos
                     Pos.mul].
  f_equal. lia.
Qed.

(** X17: [write_centered_text] fails exactly when [font.render] raises,
    with that exception and before anything is drawn.  When the font
    renders the text, it returns the rendered surface and blits it on
    the screen, and on the screen only, with its top at the ordinate of
    the anchor and its middle within half a pixel of the abscissa of the
    anchor. *)
Theorem write_centered_text_centres env text font color coord w :
  match font_render env font text color with
  | Rendered render =>
      exists x w',
        write_centered_text env text font color coord w = Ok render w' /\
        calls_since w w'
        = [write_centered_text_called text font color coord;
           FontRender font text color;
           Blit Screen (get_width render) (get_height render) x (snd coord);
           Flip] /\
        -1 <= 2 * x + get_width render - 2 * fst coord <= 1 /\
        screen w'
        = Surface_blit (alpha_blend env) (screen w) render x (snd coord) /\
        background_layer w' = background_layer w /\
        scenery_layer w' = scenery_layer w
  | NotRendered e =>
      exists w',
        write_centered_text env text font color coord w = Raise e w' /\
        calls_since w w'
        = [write_centered_text_called text font color coord;
           FontRender font text color] /\
        surfaces_of w' = surfaces_of w
  end.
Proof.
  destruct (font_render env font text color) as [render|e] eqn:E.
  - exists (int (inject_Z (fst coord)
                 - (get_width render * Z.sgn 2 # Z.to_pos (Z.abs 2)))).
    unfold write_centered_text, Font_render, py_truediv, truediv, bind, emit,
      modify, blit, flip, ret.
    rewrite E. cbn [Z.eqb].
    eexists. split; [reflexivity|]. split; [|split; [|repeat split]].
    + apply calls_since_app. simpl. now rewrite <- !app_assoc.
    + rewrite int_centre.
      pose proof (Z.quot_rem' (2 * fst coord - get_width render) 2).
      pose proof (Z.rem_bound_abs (2 * fst coord - get_width render) 2).
      lia.
  - rewrite (write_centered_text_not_rendered _ _ _ _ _ _ _ E).
    eexists. split; [reflexivity|]. split; [|reflexivity].
    apply calls_since_app. simpl. now rewrite <- !app_assoc.
Qed.

Lemma write_centered_text_centres_witness :
  (exists x w',
      write_centered_text Sample.env "World 1" FONT_MD (0, 0, 0) (480, 16)
        (boot [])
      = Ok {| get_width := 224; get_height := 64;
              get_at := fun _ _ => (0, 0, 0, 255) |} w' /\
      -1 <= 2 * x + 224 - 2 * 480 <= 1) /\
  (exists w',
      write_centered_text Sample.env (String "a" (String Ascii.zero "b"))
        FONT_MD (0, 0, 0) (480, 16) (boot [])
      = Raise (ValueError "A null character was found in the text") w' /\
      surfaces_of w' = surfaces_of (boot [])).
Proof.
  split.
  - destruct (write_centered_text_centres Sample.env "World 1" FONT_MD
                (0, 0, 0) (480, 16) (boot []))
      as (x & w' & E & _ & Hx & _).
    exists x, w'. split; [exact E|exact Hx].
  - destruct (write_centered_text_centres Sample.env
                (String "a" (String Ascii.zero "b")) FONT_MD
                (0, 0, 0) (480, 16) (boot []))
      as (w' & E & _ & Hs).
    exists w'. split; [exact E|exact Hs].
Defined.

(** X18: when the playing state cannot be built, either the screen is as it
    was, or the level was loaded, its music started and its background
    drawn, and then either [set_scenery] failed, and the screen shows the
    background of the new level without its scenery, or the name of the
    level could not be rendered, and the screen shows the new background
    and scenery without the name. *)
Theorem failed_construction_screen env n w err w' :
  PlayingState_init env n w = Raise err w' ->
  screen w' = screen w \/
  exists lvl w1 w2 w3,
    load env ("world-" ++ str n) w = Ok lvl w1 /\
    play_music env (music lvl) w1 = Ok tt w2 /\
    set_background env (background_color lvl) (background_img lvl) w2
    = Ok tt w3 /\
    ((set_scenery env (scenery_img lvl) w3 = Raise err w' /\
      surfaces_of w' = surfaces_of w3) \/
     (exists w4,
         set_scenery env (scenery_img lvl) w3 = Ok tt w4 /\
         font_render env FONT_MD (name lvl) (0, 0, 0) = NotRendered err /\
         surfaces_of w' = surfaces_of w4)).
Proof.
  unfold PlayingState_init, bind.
  pose proof (load_keeps_surfaces env ("world-" ++ str n) w) as K1.
  destruct (load env _ w) as [lvl w1|e1 w1] eqn:E1.
  2:{ intros E. injection E as _ <-. left.
      exact (f_equal (fun t => fst (fst t)) K1). }
  pose proof (play_music_keeps_surfaces env (music lvl) w1) as K2.
  destruct (play_music env _ w1) as [[] w2|e2 w2] eqn:E2.
  2:{ intros E. injection E as _ <-. left.
      unfold agree in *. cbn [world_of] in *.
      exact (f_equal (fun t => fst (fst t)) (eq_trans K2 K1)). }
  unfold agree in *. cbn [world_of] in *.
  destruct (set_background env _ _ w2) as [[] w3|e3 w3] eqn:E3.
  2:{ intros E. injection E as _ <-. left.
      destruct (set_background_raise_frame _ _ _ _ _ _ E3) as (Hs & _).
      rewrite Hs.
      exact (f_equal (fun t => fst (fst t)) (eq_trans K2 K1)). }
  destruct (set_scenery env _ w3) as [[] w4|e4 w4] eqn:E4.
  2:{ intros E. injection E as <- <-. right.
      exists lvl, w1, w2, w3. repeat split; try assumption.
      left. split; [exact E4|].
      eapply set_scenery_raise_frame; eassumption. }
  destruct (font_render env FONT_MD (name lvl) (0, 0, 0))
    as [render|e] eqn:Ef.
  - destruct (write_centered_text_rendered env (name lvl) FONT_MD (0, 0, 0)
                (WIDTH / 2, 16) w4 render Ef) as (w5 & E5).
    rewrite E5. discriminate.
  - rewrite (write_centered_text_not_rendered _ _ _ _ (WIDTH / 2, 16) w4 _ Ef).
    intros E. injection E as <- <-. right.
    exists lvl, w1, w2, w3. repeat split; try assumption.
    right. exists w4. split; [exact E4|]. split; [exact Ef|reflexivity].
Qed.

Lemma failed_construction_screen_witness :
  let w := boot [] in
  let err := ValueError "A null character was found in the text" in
  let w' := world_of (PlayingState_init Sample.env_with_null_name 1 w) in
  screen w' = screen w \/
  exists lvl w1 w2 w3,
    load Sample.env_with_null_name ("world-" ++ str 1) w = Ok lvl w1 /\
    play_music Sample.env_with_null_name (music lvl) w1 = Ok tt w2 /\
    set_background Sample.env_with_null_name (background_color lvl)
      (background_img lvl) w2 = Ok tt w3 /\
    ((set_scenery Sample.env_with_null_name (scenery_img lvl) w3
      = Raise err w' /\
      surfaces_of w' = surfaces_of w3) \/
     (exists w4,
         set_scenery Sample.env_with_null_name (scenery_img lvl) w3
         = Ok tt w4 /\
         font_render Sample.env_with_null_name FONT_MD (name lvl) (0, 0, 0)
         = NotRendered err /\
         surfaces_of w' = surfaces_of w4)).
Proof.
  intros w err w'.
  exact (failed_construction_screen Sample.env_with_null_name 1 w err w'
           eq_refl).
Defined.

(** On that installation the construction does fail at the name: every
    method was entered, the exception is the one of [font.render], and
    the screen already shows the sky of the new level. *)
Example null_name_fails_at_the_text :
  let o := PlayingState_init Sample.env_with_null_name 1 (boot []) in
  o = Raise (ValueError "A null character was found in the text")
            (world_of o) /\
  List.length (entries_of (world_of o)) = 5%nat /\
  get_at (screen (boot [])) 0 0 = (0, 0, 0, 255) /\
  get_at (screen (world_of o)) 0 0 = (135, 206, 235, 255).
Proof. vm_compute. repeat split. Qed.
